(** * Teams web-app exporter: incremental Markdown archives

    A shallow embedding of the archive writer ([src/lib/markdown.ts]), the
    in-page extraction scripts ([src/lib/extract.ts]) and the visibility
    analyzer ([src/lib/retention.ts]), with the properties the
    specification states about them.

    Conventions.
    - A JavaScript string is a [string]: a sequence of code units, here the
      code units below 256, so that [\s] is the set 9-13, 32 and 160.
    - A [Date] is its time value: [Some t] for [t] milliseconds since the
      epoch, [None] for the time value NaN ("Invalid Date").
    - The file system is a finite map from path to file content; a function
      that reads or writes files takes the map and returns the new one.
    - What the platform supplies (date parsing and formatting, the time
      zone, [path.join]) is a [Runtime] record the development is
      parametric in; [utc_en] is the instance of a UTC host with English
      formatting, used for the worked examples.
    - The clock is an argument: [now] is what [new Date()] or [Date.now()]
      gives at the call.
    - The live chat view is a [Page]: what the selectors of the scripts
      find in it, collection after collection.
    - A script whose loop can go on for ever is run for a number of
      turns: by then it has returned, it has thrown, or it is still
      running.

    The program comes first (modules [Js] to [Retention]), then the
    predicates the properties are stated with and the worked inputs, then
    the facts, one module for each part of the program. *)

From Stdlib Require Import ZArith Ascii String List Bool Lia Sorted Permutation.
From stdpp Require Import gmap strings list.

Local Open Scope Z_scope.

(** String concatenation computes under [simpl] in this development. *)
#[local] Arguments String.append !s1 s2 : simpl nomatch.

(** ** JavaScript strings *)

Module Js.

Definition chr (n : nat) : ascii := ascii_of_nat n.

Definition code (c : ascii) : nat := nat_of_ascii c.

(** The double quote, code unit 34. *)
Definition dquote : ascii := chr 34.

(** Line feed, code unit 10. *)
Definition nl : ascii := chr 10.

Definition nl_s : string := String nl EmptyString.

(** [\s] of a regular expression, which is also the set [trim] removes:
    WhiteSpace and LineTerminator code units below 256. *)
Definition is_space (c : ascii) : bool :=
  let n := code c in
  ((9 <=? n)%nat && (n <=? 13)%nat) || (n =? 32)%nat || (n =? 160)%nat.

(** [\d] *)
Definition is_digit (c : ascii) : bool :=
  let n := code c in (48 <=? n)%nat && (n <=? 57)%nat.

Definition is_char (a : ascii) (c : ascii) : bool := Ascii.eqb a c.

#[global] Arguments is_space : simpl never.
#[global] Arguments is_digit : simpl never.
#[global] Arguments is_char : simpl never.

Fixpoint str_forallb (p : ascii -> bool) (s : string) : bool :=
  match s with
  | EmptyString => true
  | String c s' => p c && str_forallb p s'
  end.

Fixpoint str_map (f : ascii -> ascii) (s : string) : string :=
  match s with
  | EmptyString => EmptyString
  | String c s' => String (f c) (str_map f s')
  end.

(** [s.slice(0, n)] *)
Fixpoint slice0 (n : nat) (s : string) : string :=
  match n, s with
  | S n', String c s' => String c (slice0 n' s')
  | _, _ => EmptyString
  end.

(** [c.repeat(n)] for a one-unit string. *)
Fixpoint repeat_char (c : ascii) (n : nat) : string :=
  match n with
  | O => EmptyString
  | S n' => String c (repeat_char c n')
  end.

(** [s.startsWith(p)], returning what follows the prefix. *)
Fixpoint strip_prefix (p s : string) : option string :=
  match p with
  | EmptyString => Some s
  | String a p' =>
      match s with
      | String b s' => if Ascii.eqb a b then strip_prefix p' s' else None
      | EmptyString => None
      end
  end.

Definition starts_with (p s : string) : bool :=
  match strip_prefix p s with Some _ => true | None => false end.

(** The last code unit, if any. *)
Fixpoint last_char (s : string) : option ascii :=
  match s with
  | EmptyString => None
  | String c EmptyString => Some c
  | String _ s' => last_char s'
  end.

(** The longest prefix in class [p], and what follows it. *)
Fixpoint span (p : ascii -> bool) (s : string) : string * string :=
  match s with
  | EmptyString => (EmptyString, EmptyString)
  | String c s' =>
      if p c then let '(a, b) := span p s' in (String c a, b)
      else (EmptyString, s)
  end.

(** [s.trimEnd()] *)
Fixpoint trimEnd (s : string) : string :=
  match s with
  | EmptyString => EmptyString
  | String c s' =>
      match trimEnd s' with
      | EmptyString => if is_space c then EmptyString else String c EmptyString
      | t => String c t
      end
  end.

(** [s.trimStart()] *)
Fixpoint trimStart (s : string) : string :=
  match s with
  | EmptyString => EmptyString
  | String c s' => if is_space c then trimStart s' else s
  end.

Definition trim (s : string) : string := trimEnd (trimStart s).

(** [s.split("\n")]: never empty, the empty string gives one empty line. *)
Fixpoint split_lines (s : string) : list string :=
  match s with
  | EmptyString => [EmptyString]
  | String c s' =>
      if Ascii.eqb c nl then EmptyString :: split_lines s'
      else match split_lines s' with
           | l :: ls => String c l :: ls
           | [] => [String c EmptyString]
           end
  end.

(** [lines.join(sep)] *)
Fixpoint join (sep : string) (l : list string) : string :=
  match l with
  | [] => EmptyString
  | [x] => x
  | x :: l' => x +:+ sep +:+ join sep l'
  end.

(** Number of lines of [s] for which [p] holds. *)
Definition count_lines (p : string -> bool) (s : string) : nat :=
  length (List.filter p (split_lines s)).

(** Number of positions of [s] at which [p] occurs (overlaps counted). *)
Fixpoint count_occ_str (p s : string) : nat :=
  (if starts_with p s then 1 else 0)%nat +
  match s with
  | EmptyString => 0%nat
  | String _ s' => count_occ_str p s'
  end.

(** Decimal rendering of an integer, as template literals do. *)
Fixpoint digits_of_pos_fuel (fuel : nat) (n : Z) (acc : string) : string :=
  match fuel with
  | O => acc
  | S f =>
      let d := chr (48 + Z.to_nat (n mod 10)) in
      if n <? 10 then String d acc
      else digits_of_pos_fuel f (n / 10) (String d acc)
  end.

Definition show_Z (n : Z) : string :=
  let digits m := digits_of_pos_fuel (S (Z.to_nat (Z.log2 m))) m EmptyString in
  if n <? 0 then String "-" (digits (- n)) else digits n.

Definition show_nat (n : nat) : string := show_Z (Z.of_nat n).

End Js.

(** ** Regular expressions

    The content normalizer is a chain of [String.prototype.replace] calls
    with backtracking patterns (lazy quantifiers, captures); this is the
    part of the matcher they use. A match leaves the rest of the input to
    its continuation, which may refuse it and so ask for the next way to
    match. *)

Module Regex.
Import Js.

Inductive re : Type :=
| Eps
| Chr (p : ascii -> bool)
| Seq (a b : re)
| Alt (a b : re)
| Star (greedy : bool) (a : re)
| Grp (i : nat) (a : re).

(** Captured groups, most recent first. *)
Definition caps : Type := list (nat * string).

Fixpoint group (i : nat) (cs : caps) : string :=
  match cs with
  | [] => EmptyString
  | (j, v) :: cs' => if (i =? j)%nat then v else group i cs'
  end.

Fixpoint run {R : Type} (r : re) (s : string) (cs : caps)
    (k : string -> caps -> option R) {struct r} : option R :=
  match r with
  | Eps => k s cs
  | Chr p =>
      match s with
      | String c s' => if p c then k s' cs else None
      | EmptyString => None
      end
  | Seq a b => run a s cs (fun s' cs' => run b s' cs' k)
  | Alt a b =>
      match run a s cs k with
      | Some x => Some x
      | None => run b s cs k
      end
  | Star g a =>
      (fix loop (n : nat) (s : string) (cs : caps) {struct n} : option R :=
         match n with
         | O => k s cs
         | S n' =>
             let again s' cs' :=
               if (String.length s' <? String.length s)%nat
               then loop n' s' cs' else None in
             if g then
               match run a s cs again with
               | Some x => Some x
               | None => k s cs
               end
             else
               match k s cs with
               | Some x => Some x
               | None => run a s cs again
               end
         end) (String.length s) s cs
  | Grp i a =>
      run a s cs (fun s' cs' =>
        k s' ((i, slice0 (String.length s - String.length s') s) :: cs'))
  end.

(** A match of [r] at the head of [s]: the matched text, the groups and
    the rest. *)
Definition match_here (r : re) (s : string) : option (string * caps * string) :=
  run r s [] (fun s' cs =>
    Some (slice0 (String.length s - String.length s') s, cs, s')).

(** [s.replace(/r/g, f)] *)
Fixpoint replace_all_fuel (fuel : nat) (r : re) (f : string -> caps -> string)
    (s : string) : string :=
  match fuel with
  | O => s
  | S fuel' =>
      let step :=
        match s with
        | EmptyString => EmptyString
        | String c t => String c (replace_all_fuel fuel' r f t)
        end in
      match match_here r s with
      | Some (EmptyString, cs, _) => f EmptyString cs +:+ step
      | Some (m, cs, rest) => f m cs +:+ replace_all_fuel fuel' r f rest
      | None => step
      end
  end.

Definition replace_all (r : re) (f : string -> caps -> string) (s : string) : string :=
  replace_all_fuel (S (String.length s)) r f s.

(** Pattern constructors. *)
Fixpoint lit (s : string) : re :=
  match s with
  | EmptyString => Eps
  | String c s' => Seq (Chr (is_char c)) (lit s')
  end.

Definition lower (c : ascii) : ascii :=
  let n := code c in
  if (65 <=? n)%nat && (n <=? 90)%nat then chr (n + 32) else c.

(** A literal under the [i] flag. *)
Fixpoint liti (s : string) : re :=
  match s with
  | EmptyString => Eps
  | String c s' => Seq (Chr (fun x => Ascii.eqb (lower x) (lower c))) (liti s')
  end.

Definition opt (a : re) : re := Alt a Eps.
Definition plus (a : re) : re := Seq a (Star true a).
Definition not_char (c : ascii) : re := Chr (fun x => negb (Ascii.eqb x c)).

(** [.] without the [s] flag: anything but a line terminator. *)
Definition dot : re :=
  Chr (fun x => negb ((code x =? 10)%nat || (code x =? 13)%nat)).

(** [.] under the [s] flag. *)
Definition dot_all : re := Chr (fun _ => true).

End Regex.

(** ** Dates and the host platform *)

Module Platform.
Import Js.

(** The time value of a [Date]; [None] is NaN. *)
Definition JsDate : Type := option Z.

(** [a > b], [a < b], [a <= b], [a >= b] on dates: a comparison with NaN
    is false. *)
Definition date_gt (a b : JsDate) : bool :=
  match a, b with Some x, Some y => y <? x | _, _ => false end.

Definition date_lt (a b : JsDate) : bool := date_gt b a.

Definition date_le (a b : JsDate) : bool :=
  match a, b with Some x, Some y => x <=? y | _, _ => false end.

Definition date_ge (a b : JsDate) : bool := date_le b a.

(** [a.getTime() !== b.getTime()]: NaN differs from everything, itself
    included. *)
Definition time_differs (a b : JsDate) : bool :=
  match a, b with Some x, Some y => negb (x =? y) | _, _ => true end.

(** What the scripts take from the JavaScript host. *)
Record Runtime : Type := {
  (** [new Date(s)] *)
  Date_of_string : string -> JsDate;
  (** [new Date(year, monthIndex, day, hours, minutes)], in local time *)
  Date_of_fields : Z -> Z -> Z -> Z -> Z -> JsDate;
  (** [d.toDateString()], in local time *)
  toDateString : JsDate -> string;
  (** [d.toLocaleDateString(undefined, {weekday: "long", year: "numeric",
      month: "long", day: "numeric"})] *)
  toLocaleDateString_long : JsDate -> string;
  (** [d.toLocaleDateString("de-DE", {year: "numeric", month: "long",
      day: "numeric"})] *)
  toLocaleDateString_de : JsDate -> string;
  (** [path.join(dir, file)] *)
  path_join : string -> string -> string
}.

(** [toDateString] returns a day, or [Invalid Date]: never the empty
    string. *)
Definition names_every_day (rt : Runtime) : Prop :=
  forall d, toDateString rt d <> EmptyString.

(** *** A UTC host with English formatting *)

Definition ms_per_day : Z := 86400000.

(** Day number of a proleptic Gregorian date (month 1-12), day 0 being
    1970-01-01. *)
Definition days_from_civil (y m d : Z) : Z :=
  let y' := if m <=? 2 then y - 1 else y in
  let era := y' / 400 in
  let yoe := y' - era * 400 in
  let doy := (153 * (if 2 <? m then m - 3 else m + 9) + 2) / 5 + d - 1 in
  let doe := yoe * 365 + yoe / 4 - yoe / 100 + doy in
  era * 146097 + doe - 719468.

(** The inverse: year, month (1-12) and day of the month of a day number. *)
Definition civil_from_days (z : Z) : Z * Z * Z :=
  let z := z + 719468 in
  let era := z / 146097 in
  let doe := z - era * 146097 in
  let yoe := (doe - doe / 1460 + doe / 36524 - doe / 146096) / 365 in
  let doy := doe - (365 * yoe + yoe / 4 - yoe / 100) in
  let mp := (5 * doy + 2) / 153 in
  let d := doy - (153 * mp + 2) / 5 + 1 in
  let m := if mp <? 10 then mp + 3 else mp - 9 in
  ((yoe + era * 400 + (if m <=? 2 then 1 else 0)), m, d).

Definition num_of_digits (s : string) : option Z :=
  if str_forallb is_digit s then
    Some ((fix go (acc : Z) (s : string) : Z :=
             match s with
             | EmptyString => acc
             | String c s' => go (acc * 10 + Z.of_nat (code c - 48)) s'
             end) 0 s)
  else None.

(** [parseInt(s, 10)] of a run of digits. *)
Definition parseInt_digits (s : string) : Z :=
  match num_of_digits s with Some n => n | None => 0 end.

Definition days_in_month (y m : Z) : Z :=
  days_from_civil (if m =? 12 then y + 1 else y) (if m =? 12 then 1 else m + 1) 1
  - days_from_civil y m 1.

(** [YYYY-MM-DDTHH:mm:ssZ] and [YYYY-MM-DDTHH:mm:ss.sssZ], the instants
    the chat view carries; any other text is taken as unparseable. *)
Definition parse_iso_utc (s : string) : JsDate :=
  let field (from len : nat) : option Z :=
    let f := substring from len s in
    if (String.length f =? len)%nat then num_of_digits f else None in
  let is_at (pos : nat) (c : string) : bool := String.eqb (substring pos 1 s) c in
  let fraction := is_at 19%nat "." in
  let ends_in_Z :=
    if fraction then String.eqb (substring 23 2 s) "Z"
    else String.eqb (substring 19 2 s) "Z" in
  let ms := if fraction then field 20%nat 3%nat else Some 0 in
  match field 0%nat 4%nat, field 5%nat 2%nat, field 8%nat 2%nat,
        field 11%nat 2%nat, field 14%nat 2%nat, field 17%nat 2%nat, ms with
  | Some y, Some mo, Some d, Some h, Some mi, Some sec, Some ms =>
      if is_at 4%nat "-" && is_at 7%nat "-" && is_at 10%nat "T"
         && is_at 13%nat ":" && is_at 16%nat ":" && ends_in_Z
         && (1 <=? mo) && (mo <=? 12) && (1 <=? d) && (d <=? days_in_month y mo)
         && (h <=? 23) && (mi <=? 59) && (sec <=? 59)
      then Some (days_from_civil y mo d * ms_per_day
                 + h * 3600000 + mi * 60000 + sec * 1000 + ms)
      else None
  | _, _, _, _, _, _, _ => None
  end.

(** [MakeDay] and [MakeTime] of the language definition, read in UTC;
    a year from 0 to 99 stands for 1900 + year. *)
Definition make_date_utc (year month day hours minutes : Z) : JsDate :=
  let year := if (0 <=? year) && (year <=? 99) then 1900 + year else year in
  let ym := year + month / 12 in
  let mn := month mod 12 in
  Some ((days_from_civil ym (mn + 1) 1 + day - 1) * ms_per_day
        + hours * 3600000 + minutes * 60000).

Definition nth_name (names : list string) (i : Z) : string :=
  nth (Z.to_nat i) names EmptyString.

Definition pad2 (n : Z) : string :=
  if n <? 10 then String "0" (show_Z n) else show_Z n.

Definition pad4 (n : Z) : string :=
  if n <? 10 then "000" +:+ show_Z n
  else if n <? 100 then "00" +:+ show_Z n
  else if n <? 1000 then "0" +:+ show_Z n
  else show_Z n.

Definition weekday_of_days (days : Z) : Z := (days + 4) mod 7.

Definition month_names_en : list string :=
  ["January"; "February"; "March"; "April"; "May"; "June"; "July";
   "August"; "September"; "October"; "November"; "December"].

(** [chr 228] is a-umlaut. *)
Definition month_names_de : list string :=
  ["Januar"; "Februar"; "M" +:+ String (chr 228) "rz"; "April"; "Mai";
   "Juni"; "Juli"; "August"; "September"; "Oktober"; "November";
   "Dezember"].

Definition weekday_names_en : list string :=
  ["Sunday"; "Monday"; "Tuesday"; "Wednesday"; "Thursday"; "Friday";
   "Saturday"].

Definition invalid_date : string := "Invalid Date".

(** [Sun Jun 15 2025] *)
Definition utc_toDateString (d : JsDate) : string :=
  match d with
  | None => invalid_date
  | Some t =>
      let days := t / ms_per_day in
      let '(y, m, dd) := civil_from_days days in
      slice0 3 (nth_name weekday_names_en (weekday_of_days days))
        +:+ " " +:+ slice0 3 (nth_name month_names_en (m - 1))
        +:+ " " +:+ pad2 dd +:+ " " +:+ pad4 y
  end.

(** [Sunday, June 15, 2025] *)
Definition utc_toLocaleDateString_long (d : JsDate) : string :=
  match d with
  | None => invalid_date
  | Some t =>
      let days := t / ms_per_day in
      let '(y, m, dd) := civil_from_days days in
      nth_name weekday_names_en (weekday_of_days days)
        +:+ ", " +:+ nth_name month_names_en (m - 1)
        +:+ " " +:+ show_Z dd +:+ ", " +:+ show_Z y
  end.

(** [15. Juni 2025] *)
Definition utc_toLocaleDateString_de (d : JsDate) : string :=
  match d with
  | None => invalid_date
  | Some t =>
      let '(y, m, dd) := civil_from_days (t / ms_per_day) in
      show_Z dd +:+ ". " +:+ nth_name month_names_de (m - 1)
        +:+ " " +:+ show_Z y
  end.

Definition utc_en : Runtime := {|
  Date_of_string := parse_iso_utc;
  Date_of_fields := make_date_utc;
  toDateString := utc_toDateString;
  toLocaleDateString_long := utc_toLocaleDateString_long;
  toLocaleDateString_de := utc_toLocaleDateString_de;
  path_join := fun dir file => dir +:+ "/" +:+ file
|}.

End Platform.

(** ** The archive writer ([src/lib/markdown.ts]) *)

Module Markdown.
Import Js Regex Platform.

(** [ExtractedMessage] of [src/lib/extract.ts]. *)
Record ExtractedMessage : Type := {
  id : Z;
  author : string;
  timestamp : string;
  contentHtml : string
}.

(** *** htmlToText *)

Definition tag (name : string) : re := liti ("<" +:+ name +:+ ">").

(** [<name>(.*?)</name>] under the [i] flag, group 1 being the body. *)
Definition element (any : re) (name : string) : re :=
  Seq (tag name) (Seq (Grp 1 (Star false any)) (liti ("</" +:+ name +:+ ">"))).

Definition wrap (before after : string) : string -> caps -> string :=
  fun _ cs => before +:+ group 1 cs +:+ after.

Definition const_text (t : string) : string -> caps -> string := fun _ _ => t.

(** [<[^>]+>] *)
Definition any_tag : re :=
  Seq (lit "<") (Seq (plus (not_char ">")) (lit ">")).

(** [<br\s*\/?>] *)
Definition br_tag : re :=
  Seq (liti "<br") (Seq (Star true (Chr is_space)) (Seq (opt (lit "/")) (lit ">"))).

(** [<\/?(p|div|li|tr)>] *)
Definition block_tag : re :=
  Seq (lit "<") (Seq (opt (lit "/"))
    (Seq (Grp 1 (Alt (liti "p") (Alt (liti "div") (Alt (liti "li") (liti "tr")))))
         (lit ">"))).

(** The link rule: [<a], one or more units other than [>], [href=] and
    a quoted target (group 1), any units other than [>], [>], a lazy body
    (group 2) and [</a>]. *)
Definition anchor : re :=
  Seq (liti "<a") (Seq (plus (not_char ">"))
    (Seq (liti "href=") (Seq (Chr (is_char dquote))
      (Seq (Grp 1 (Star true (not_char dquote))) (Seq (Chr (is_char dquote))
        (Seq (Star true (not_char ">")) (Seq (lit ">")
          (Seq (Grp 2 (Star false dot)) (liti "</a>"))))))))).

(** The replacement function of the block-quote rule. *)
Definition quote_lines (content : string) : string :=
  join nl_s
    (map (fun l => "> " +:+ l)
       (split_lines (trim (replace_all any_tag (const_text EmptyString) content)))).

(** [\n{3,}] *)
Definition blank_run : re :=
  let n := Chr (is_char nl) in Seq n (Seq n (Seq n (Star true n))).

Definition htmlToText (html : string) : string :=
  let s := replace_all br_tag (const_text nl_s) html in
  let s := replace_all block_tag (const_text nl_s) s in
  let s := replace_all (element dot "b") (wrap "**" "**") s in
  let s := replace_all (element dot "strong") (wrap "**" "**") s in
  let s := replace_all (element dot "i") (wrap "_" "_") s in
  let s := replace_all (element dot "em") (wrap "_" "_") s in
  let s := replace_all (element dot "code") (wrap "`" "`") s in
  let s := replace_all anchor
             (fun _ cs => "[" +:+ group 2 cs +:+ "](" +:+ group 1 cs +:+ ")") s in
  let s := replace_all (element dot_all "blockquote")
             (fun _ cs => quote_lines (group 1 cs)) s in
  let s := replace_all any_tag (const_text EmptyString) s in
  let s := replace_all (lit "&amp;") (const_text "&") s in
  let s := replace_all (lit "&lt;") (const_text "<") s in
  let s := replace_all (lit "&gt;") (const_text ">") s in
  let s := replace_all (lit "&quot;") (const_text (String dquote EmptyString)) s in
  let s := replace_all (lit "&#39;") (const_text "'") s in
  let s := replace_all (lit "&nbsp;") (const_text " ") s in
  let s := replace_all blank_run (const_text (nl_s +:+ nl_s)) s in
  trim s.

(** *** sanitizeFilename *)

(** The class of the first replacement: slash, backslash, colon, star,
    question mark, double quote, angle brackets and bar. *)
Definition hostile (c : ascii) : bool :=
  is_char "/" c || is_char "\" c || is_char ":" c || is_char "*" c
  || is_char "?" c || is_char dquote c || is_char "<" c || is_char ">" c
  || is_char "|" c.

Definition underscore : ascii := "_"%char.

#[global] Arguments hostile : simpl never.

(** The first replacement: every unit of the class becomes an
    underscore. *)
Definition replace_hostile (s : string) : string :=
  str_map (fun c => if hostile c then underscore else c) s.

(** [s.replace(/p+/g, "_")] for a class [p]: every maximal run of [p]
    becomes one underscore; [in_run] tells that the unit before was in
    the run being replaced. *)
Fixpoint collapse_runs (p : ascii -> bool) (in_run : bool) (s : string) : string :=
  match s with
  | EmptyString => EmptyString
  | String c s' =>
      if p c then
        if in_run then collapse_runs p true s'
        else String underscore (collapse_runs p true s')
      else String c (collapse_runs p false s')
  end.

(** The [^_] alternative of [/^_|_$/g]. *)
Definition strip_leading_underscore (s : string) : string :=
  match s with
  | String c s' => if is_char underscore c then s' else s
  | EmptyString => EmptyString
  end.

(** The [_$] alternative of [/^_|_$/g]. *)
Fixpoint strip_trailing_underscore (s : string) : string :=
  match s with
  | EmptyString => EmptyString
  | String c EmptyString =>
      if is_char underscore c then EmptyString else s
  | String c s' => String c (strip_trailing_underscore s')
  end.

(** The name before the final [slice]. *)
Definition sanitized_untruncated (name : string) : string :=
  strip_trailing_underscore
    (strip_leading_underscore
       (collapse_runs (is_char underscore) false
          (collapse_runs is_space false
             (replace_hostile name)))).

Definition sanitizeFilename (name : string) : string :=
  slice0 200 (sanitized_untruncated name).

(** *** messagesToMarkdown *)

(** The lines the renderer pushes, by the statement that pushes them. *)
Inductive Line : Type :=
| Blank
| DaySeparator
| DayHeading (day : string)
| AuthorLabel (author timestamp : string)
| Continuation (timestamp : string)
| ContentLine (text : string).

Definition render_line (l : Line) : string :=
  match l with
  | Blank => EmptyString
  | DaySeparator => "---"
  | DayHeading day => "## " +:+ day
  | AuthorLabel a ts => "**" +:+ a +:+ "** [" +:+ ts +:+ "]:"
  | Continuation ts => "*[" +:+ ts +:+ "]:*"
  | ContentLine text => text
  end.

Definition is_DayHeading (l : Line) : bool :=
  match l with DayHeading _ => true | _ => false end.
Definition is_DaySeparator (l : Line) : bool :=
  match l with DaySeparator => true | _ => false end.
Definition is_AuthorLabel (l : Line) : bool :=
  match l with AuthorLabel _ _ => true | _ => false end.
Definition is_Continuation (l : Line) : bool :=
  match l with Continuation _ => true | _ => false end.

Definition count (p : Line -> bool) (ls : list Line) : nat :=
  length (List.filter p ls).

Section Rendering.
Variable rt : Runtime.

Definition formatTimestamp (iso : string) : string := iso.

Definition formatDate (iso : string) : string :=
  toLocaleDateString_long rt (Date_of_string rt iso).

(** The body of the loop over the messages, from the values [lastAuthor]
    and [lastDateStr] have when it is entered. *)
Fixpoint render_from (lastAuthor lastDateStr : string)
    (messages : list ExtractedMessage) : list Line :=
  match messages with
  | [] => []
  | msg :: rest =>
      let dateStr := toDateString rt (Date_of_string rt (timestamp msg)) in
      let content := htmlToText (contentHtml msg) in
      let new_day := negb (String.eqb dateStr lastDateStr) in
      let day_lines :=
        if new_day then
          (if negb (String.eqb lastDateStr EmptyString)
           then [Blank; DaySeparator; Blank] else [])
          ++ [DayHeading (formatDate (timestamp msg)); Blank]
        else [] in
      let lastDateStr := if new_day then dateStr else lastDateStr in
      let lastAuthor := if new_day then EmptyString else lastAuthor in
      let new_author := negb (String.eqb (author msg) lastAuthor) in
      let label :=
        if new_author
        then AuthorLabel (author msg) (formatTimestamp (timestamp msg))
        else Continuation (formatTimestamp (timestamp msg)) in
      let lastAuthor := if new_author then author msg else lastAuthor in
      day_lines ++ [label] ++ map ContentLine (split_lines content) ++ [Blank]
        ++ render_from lastAuthor lastDateStr rest
  end.

Definition markdown_lines (messages : list ExtractedMessage) : list Line :=
  render_from EmptyString EmptyString messages.

Definition messagesToMarkdown (messages : list ExtractedMessage) : string :=
  match messages with
  | [] => EmptyString
  | _ => join nl_s (map render_line (markdown_lines messages))
  end.

(** *** The cursor marker *)

Definition marker_open : string := "<!-- last-message: ".
Definition marker_close : string := " -->".

Definition not_space (c : ascii) : bool := negb (is_space c).

(** A string of as many units as there are classes, unit by unit in its
    class; returns it and the rest. *)
Fixpoint match_classes (classes : list (ascii -> bool)) (s : string)
    : option (string * string) :=
  match classes with
  | [] => Some (EmptyString, s)
  | p :: ps =>
      match s with
      | String c s' =>
          if p c then
            match match_classes ps s' with
            | Some (m, r) => Some (String c m, r)
            | None => None
            end
          else None
      | EmptyString => None
      end
  end.

(** [\d{4}-\d{2}-\d{2}T] *)
Definition date_T : list (ascii -> bool) :=
  [is_digit; is_digit; is_digit; is_digit; is_char "-"; is_digit; is_digit;
   is_char "-"; is_digit; is_digit; is_char "T"].

(** The pattern of [getLatestTimestamp] at the head of [s]; the result
    is its group. The run of [[^\s]+] is the longest one: the unit after
    it has to be the space of the closing text. *)
Definition marker_here (s : string) : option string :=
  match strip_prefix marker_open s with
  | None => None
  | Some r =>
      match match_classes date_T r with
      | None => None
      | Some (d, r1) =>
          let '(run, r2) := span not_space r1 in
          match run with
          | EmptyString => None
          | _ => if starts_with marker_close r2 then Some (d +:+ run) else None
          end
      end
  end.

(** [content.match(timestampRegex)]: group 1 of the leftmost match. *)
Fixpoint find_marker (content : string) : option string :=
  match marker_here content with
  | Some ts => Some ts
  | None =>
      match content with
      | EmptyString => None
      | String _ rest => find_marker rest
      end
  end.

(** The pattern of the append path at the head of [s]: the opening text,
    a run of non-space units, the closing text, an optional line feed and
    the end of the content. *)
Definition trailing_marker_here (s : string) : bool :=
  match strip_prefix marker_open s with
  | None => false
  | Some r =>
      let '(run, r2) := span not_space r in
      match run with
      | EmptyString => false
      | _ =>
          match strip_prefix marker_close r2 with
          | Some t => String.eqb t EmptyString || String.eqb t nl_s
          | None => false
          end
      end
  end.

(** [existing.replace(/<!-- last-message: [^\s]+ -->\n?$/, empty)] *)
Fixpoint strip_trailing_marker (existing : string) : string :=
  if trailing_marker_here existing then EmptyString
  else match existing with
       | EmptyString => EmptyString
       | String c rest => String c (strip_trailing_marker rest)
       end.

(** *** getLatestTimestamp and saveChat *)

Definition FileSystem : Type := gmap string string.

Definition getLatestTimestamp (fs : gmap string string) (filePath : string)
    : option JsDate :=
  match fs !! filePath with
  | None => None
  | Some content =>
      match find_marker content with
      | Some ts => Some (Date_of_string rt ts)
      | None => None
      end
  end.

Definition archive_path (chatName outputDir : string) : string :=
  path_join rt outputDir (sanitizeFilename chatName +:+ ".md").

(** The filter of [saveChat]. *)
Definition newer_than (lastTimestamp : option JsDate)
    (messages : list ExtractedMessage) : list ExtractedMessage :=
  match lastTimestamp with
  | Some lt =>
      List.filter (fun m => date_gt (Date_of_string rt (timestamp m)) lt) messages
  | None => messages
  end.

Definition metadata_of (ts : string) : string :=
  marker_open +:+ ts +:+ marker_close.

Definition fresh_export (chatName now markdown metadata : string) : string :=
  let header :=
    "# " +:+ chatName +:+ nl_s +:+ nl_s +:+ "Exported: " +:+ now
    +:+ nl_s +:+ nl_s in
  header +:+ markdown +:+ nl_s +:+ metadata +:+ nl_s.

Definition appended_export (existing now markdown metadata : string) : string :=
  let cleaned := strip_trailing_marker existing in
  trimEnd cleaned +:+ nl_s +:+ nl_s +:+ "---" +:+ nl_s +:+ nl_s
  +:+ "### Export appended: " +:+ now +:+ nl_s +:+ nl_s
  +:+ markdown +:+ nl_s +:+ metadata +:+ nl_s.

(** [saveChat]; [now] is [new Date().toISOString()] at the time of the
    call. The result is the count returned and the files afterwards
    ([mkdir] makes directories only, which the map does not record). *)
Definition saveChat (chatName : string) (messages : list ExtractedMessage)
    (outputDir : string) (now : string) (fs : gmap string string)
    : nat * gmap string string :=
  let filePath := archive_path chatName outputDir in
  let lastTimestamp := getLatestTimestamp fs filePath in
  let newMessages := newer_than lastTimestamp messages in
  match newMessages with
  | [] => (0%nat, fs)
  | first :: _ =>
      let lastMsg := List.last newMessages first in
      let markdown := messagesToMarkdown newMessages in
      let metadata := metadata_of (timestamp lastMsg) in
      let content :=
        match fs !! filePath, lastTimestamp with
        | Some existing, Some _ => appended_export existing now markdown metadata
        | _, _ => fresh_export chatName now markdown metadata
        end in
      (length newMessages, <[filePath := content]> fs)
  end.

End Rendering.

End Markdown.

(** ** The extraction scripts ([src/lib/extract.ts]) *)

Module Extract.
Import Js Platform Markdown.

(** A child of the chat pane, as the selectors of the scripts see it. The
    id of a message body is taken to end in an integer, as those of the
    chat view do ([parseInt] then gives that integer, never NaN), and a
    time element to carry its [datetime] attribute. The author, time and
    content are those of the clone the script prepares; a node on which
    the preparation throws is not modelled. *)
Record Node : Type := {
  (** the number in the id of the first [message-body-] element *)
  body_id : option Z;
  (** an element labelled [Animated GIF] is present *)
  animated_gif : bool;
  (** the text of the [message-author-name] element *)
  author_name : option string;
  (** the [datetime] attribute of the first [timestamp-] element *)
  time_datetime : option string;
  (** the text of the [content-] element inside the message body *)
  body_text : option string
}.

Record ExtractionResult : Type := {
  messages : list ExtractedMessage;
  error : option string
}.

(** *** Deduplication and sequencing *)

(** A [Map] in insertion order. *)
Definition has (m : list (Z * Node)) (key : Z) : bool :=
  existsb (fun e => fst e =? key) m.

(** The callback of [collected.forEach]. *)
Definition index_node (m : list (Z * Node)) (n : Node) : list (Z * Node) :=
  match body_id n with
  | Some key =>
      if negb (animated_gif n) then
        if has m key then m else m ++ [(key, n)]
      else m
  | None => m
  end.

Definition index_nodes (collected : list Node) : list (Z * Node) :=
  fold_left index_node collected [].

(** [entries.sort(function(a, b) { return a[0] - b[0]; })]: a stable sort
    by key. The keys of a [Map] are distinct, so the order is the same for
    every sorting algorithm. *)
Fixpoint insert_entry (e : Z * Node) (sorted : list (Z * Node))
    : list (Z * Node) :=
  match sorted with
  | [] => [e]
  | x :: rest =>
      if fst e <=? fst x then e :: x :: rest
      else x :: insert_entry e rest
  end.

Definition sort_entries (entries : list (Z * Node)) : list (Z * Node) :=
  fold_right insert_entry [] entries.

Definition sequence_entries (collected : list Node) : list (Z * Node) :=
  sort_entries (index_nodes collected).

Definition sequence (collected : list Node) : list Node :=
  map snd (sequence_entries collected).

(** The first collected node eligible under key [key]. *)
Definition eligible (key : Z) (n : Node) : bool :=
  match body_id n with
  | Some k => (k =? key) && negb (animated_gif n)
  | None => false
  end.

(** *** Structured data *)

(** One turn of the loop over [nodes]. *)
Definition extract_node (n : Node) : option ExtractedMessage :=
  match author_name n, time_datetime n, body_text n with
  | Some a, Some t, Some b =>
      Some {| id := match body_id n with Some i => i | None => 0 end;
              author := trim a;
              timestamp := t;
              contentHtml := b |}
  | _, _, _ => None
  end.

Fixpoint extract_messages (nodes : list Node) : list ExtractedMessage :=
  match nodes with
  | [] => []
  | n :: rest =>
      match extract_node n with
      | Some m => m :: extract_messages rest
      | None => extract_messages rest
      end
  end.

Definition no_chat_pane : string :=
  "No chat pane found. Make sure a chat is open in Teams.".

Definition no_messages : string := "No messages could be extracted.".

(** What an evaluation can throw: the [RangeError] of [toISOString] on an
    Invalid Date. *)
Inductive Exception : Type :=
| RangeError.

(** What a run comes to when its loop is given so many turns: it returns
    a value, it throws (the promise of the script is rejected), or it is
    still running. *)
Inductive Outcome (A : Type) : Type :=
| Returned (a : A)
| Thrown (e : Exception)
| Running.

#[global] Arguments Returned {A} a.
#[global] Arguments Thrown {A} e.
#[global] Arguments Running {A}.

Section Scripts.
Variable rt : Runtime.

Definition node_date (n : Node) : option JsDate :=
  match time_datetime n with
  | Some t => Some (Date_of_string rt t)
  | None => None
  end.

(** [getOldestTimestamp]: [None] is [null]. *)
Definition getOldestTimestamp (nodes : list Node) : option JsDate :=
  fold_left
    (fun oldest n =>
       match node_date n with
       | Some dt =>
           match oldest with
           | None => Some dt
           | Some o => if date_lt dt o then Some dt else oldest
           end
       | None => oldest
       end)
    nodes None.

(** The filter of the date trim. *)
Definition in_range (cutoffDate : JsDate) (n : Node) : bool :=
  match node_date n with
  | None => true
  | Some d => date_ge d cutoffDate
  end.

(** From the collected nodes to the result: what both scripts do once
    scrolling is over (the scroll-down script has no date trim). *)
Definition finish (cutoffDate : option JsDate) (collected : list Node)
    : ExtractionResult :=
  let nodes := sequence collected in
  let nodes :=
    match cutoffDate with
    | Some c => List.filter (in_range c) nodes
    | None => nodes
    end in
  match nodes with
  | [] => {| messages := []; error := Some no_messages |}
  | _ => {| messages := extract_messages nodes; error := None |}
  end.

(** The live view: what the scripts observe of the page. [revealed k] is
    what the [k]-th collection after the first appends to [collected]: the
    children at the [collect()] that follows a wait, with what the
    mutation observer pushed during the wait. *)
Record Page : Type := {
  chat_pane : bool;
  initial_children : list Node;
  scroll_container : bool;
  revealed : nat -> list Node;
  (** the bottom test of the scroll-down script at collection [k] *)
  at_bottom : nat -> bool
}.

(** *** Scrolling toward older history *)

Record UpState : Type := {
  up_collected : list Node;
  up_noChangeCount : nat;
  up_prevOldest : option JsDate;
  up_scrollIter : nat
}.

(** What one turn of [while (true)] comes to. *)
Inductive Turn : Type :=
| Again (st : UpState)
| Break (st : UpState)
| Throws (e : Exception).

(** [cutoffDate || sinceDate] *)
Definition effective_cutoff (cutoffDate sinceDate : option JsDate)
    : option JsDate :=
  match cutoffDate with Some c => Some c | None => sinceDate end.

(** The progress log of a changed turn, every fifth: it prints
    [currentOldest.toISOString()], or [unknown] for null; [toISOString]
    throws on an Invalid Date. *)
Definition log_throws (scrollIter : nat) (currentOldest : option JsDate) : bool :=
  (scrollIter mod 5 =? 0)%nat
  && match currentOldest with
     | Some None => true
     | _ => false
     end.

(** One turn of [while (true)]. *)
Definition up_cycle (page : Page) (cutoffDate sinceDate : option JsDate)
    (st : UpState) : Turn :=
  let scrollIter := S (up_scrollIter st) in
  let collected := up_collected st ++ revealed page scrollIter in
  let at_iter := {| up_collected := collected;
                    up_noChangeCount := up_noChangeCount st;
                    up_prevOldest := up_prevOldest st;
                    up_scrollIter := scrollIter |} in
  let hit_cutoff :=
    match effective_cutoff cutoffDate sinceDate, getOldestTimestamp collected with
    | Some c, Some oldest => date_le oldest c
    | _, _ => false
    end in
  if hit_cutoff then Break at_iter
  else
    let currentOldest := getOldestTimestamp collected in
    let changed :=
      match up_prevOldest st, currentOldest with
      | Some p, Some c => time_differs c p
      | _, _ => true
      end in
    if changed then
      if log_throws scrollIter currentOldest then Throws RangeError
      else
        Again {| up_collected := collected;
                 up_noChangeCount := 0;
                 up_prevOldest := currentOldest;
                 up_scrollIter := scrollIter |}
    else
      let noChangeCount := S (up_noChangeCount st) in
      let st' := {| up_collected := collected;
                    up_noChangeCount := noChangeCount;
                    up_prevOldest := up_prevOldest st;
                    up_scrollIter := scrollIter |} in
      if (3 <=? noChangeCount)%nat then Break st'
      else Again {| up_collected := collected;
                    up_noChangeCount := noChangeCount;
                    up_prevOldest := currentOldest;
                    up_scrollIter := scrollIter |}.

(** The loop, for at most [fuel] turns: [Running] when it has neither
    broken nor thrown by then. *)
Fixpoint scroll_up (fuel : nat) (page : Page)
    (cutoffDate sinceDate : option JsDate) (st : UpState) : Outcome UpState :=
  match fuel with
  | O => Running
  | S fuel' =>
      match up_cycle page cutoffDate sinceDate st with
      | Break done => Returned done
      | Throws e => Thrown e
      | Again st' => scroll_up fuel' page cutoffDate sinceDate st'
      end
  end.

(** [days > 0 ? new Date(Date.now() - days * 86400000) : null] *)
Definition cutoffDate_of (days now : Z) : option JsDate :=
  if 0 <? days then Some (Some (now - days * 86400000)) else None.

(** [sinceTimestamp ? new Date(sinceTimestamp) : null]: an absent or empty
    timestamp gives [null]. *)
Definition sinceDate_of (sinceTimestamp : option string) : option JsDate :=
  match sinceTimestamp with
  | Some EmptyString | None => None
  | Some ts => Some (Date_of_string rt ts)
  end.

(** [getExtractionScript(days, sinceTimestamp)] run on [page] at time
    [now], the loop given [fuel] turns. *)
Definition getExtractionScript (days : Z) (sinceTimestamp : option string)
    (now : Z) (page : Page) (fuel : nat) : Outcome ExtractionResult :=
  if negb (chat_pane page) then
    Returned {| messages := []; error := Some no_chat_pane |}
  else
    let needsScroll := 0 <=? days in
    let cutoffDate := cutoffDate_of days now in
    let sinceDate := sinceDate_of sinceTimestamp in
    let collected := initial_children page in
    if needsScroll && scroll_container page then
      let start := {| up_collected := collected ++ revealed page 0;
                      up_noChangeCount := 0;
                      up_prevOldest := None;
                      up_scrollIter := 0 |} in
      match scroll_up fuel page cutoffDate sinceDate start with
      | Returned st => Returned (finish cutoffDate (up_collected st))
      | Thrown e => Thrown e
      | Running => Running
      end
    else Returned (finish cutoffDate collected).

(** *** Scrolling toward newer history *)

Record DownState : Type := {
  down_collected : list Node;
  down_noChangeCount : nat;
  down_prevCount : nat;
  (** collections made so far *)
  down_collections : nat;
  (** turns of the loop entered so far *)
  down_steps : nat
}.

(** The callback that fills [tempMap]: animated images count here. *)
Definition count_unique (collected : list Node) : nat :=
  length
    (fold_left
       (fun (seen : list Z) n =>
          match body_id n with
          | Some key => if existsb (Z.eqb key) seen then seen else seen ++ [key]
          | None => seen
          end)
       collected []).

Definition step_limit : nat := 5000.

(** One turn of the [for] loop: [inr] when it breaks. *)
Definition down_cycle (page : Page) (st : DownState) : DownState + DownState :=
  let k := S (down_collections st) in
  let collected := down_collected st ++ revealed page k in
  let currentCount := count_unique collected in
  let stalled := (currentCount =? down_prevCount st)%nat in
  let noChangeCount := if stalled then S (down_noChangeCount st) else 0%nat in
  let jump := stalled && (noChangeCount =? 4)%nat in
  let k := if jump then S k else k in
  let collected := if jump then collected ++ revealed page k else collected in
  let here noChangeCount k collected :=
    {| down_collected := collected;
       down_noChangeCount := noChangeCount;
       down_prevCount := currentCount;
       down_collections := k;
       down_steps := S (down_steps st) |} in
  if stalled && (8 <=? noChangeCount)%nat then
    inr {| down_collected := collected;
           down_noChangeCount := noChangeCount;
           down_prevCount := down_prevCount st;
           down_collections := k;
           down_steps := S (down_steps st) |}
  else if at_bottom page k then
    let collected := collected ++ revealed page (S k) in
    let noChangeCount := S noChangeCount in
    if (5 <=? noChangeCount)%nat then inr (here noChangeCount (S k) collected)
    else inl (here noChangeCount (S k) collected)
  else inl (here noChangeCount k collected).

(** [for (var step = 0; step < 5000; step++)], [remaining] turns left. *)
Fixpoint scroll_down (remaining : nat) (page : Page) (st : DownState)
    : DownState :=
  match remaining with
  | O => st
  | S remaining' =>
      match down_cycle page st with
      | inr done => done
      | inl st' => scroll_down remaining' page st'
      end
  end.

Definition getScrollDownExtractionScript (page : Page) : ExtractionResult :=
  if negb (chat_pane page) then
    {| messages := []; error := Some no_chat_pane |}
  else
    let collected := initial_children page in
    let collected :=
      if scroll_container page then
        down_collected
          (scroll_down step_limit page
             {| down_collected := collected;
                down_noChangeCount := 0;
                down_prevCount := 0;
                down_collections := 0;
                down_steps := 0 |})
      else collected in
    finish None collected.

End Scripts.

End Extract.

(** ** The visibility analyzer ([src/lib/retention.ts]) *)

Module Retention.
Import Js Platform Markdown.

Record Tier : Type := { tier_days : Z; tier_label : string }.

Definition MS_RETENTION_TIERS : list Tier :=
  [ {| tier_days := 30; tier_label := "30 days" |};
    {| tier_days := 60; tier_label := "60 days" |};
    {| tier_days := 90; tier_label := "90 days" |};
    {| tier_days := 120; tier_label := "120 days" |};
    {| tier_days := 180; tier_label := "180 days" |};
    {| tier_days := 365; tier_label := "1 year (365 days)" |};
    {| tier_days := 730; tier_label := "2 years (730 days)" |};
    {| tier_days := 1095; tier_label := "3 years" |};
    {| tier_days := 1825; tier_label := "5 years" |};
    {| tier_days := 2555; tier_label := "7 years" |} ].

Record ChatDateRange : Type := {
  name : string;
  oldest : Z;
  newest : Z;
  ageDays : Z;
  messageCount : nat
}.

Record VisibilityAnalysis : Type := {
  chatsAnalyzed : nat;
  chatsWithDates : nat;
  oldestMessage : option (Z * string);
  newestMessage : option (Z * string);
  medianOldestAgeDays : Z;
  maxOldestAgeDays : Z;
  sidebarWindowDays : Z;
  explanation : string;
  nearestRetentionTier : option Tier;
  chatRanges : list ChatDateRange
}.

(** *** Timestamps in an archive *)

(** [\d{2}\.\d{2}\.\d{4},] *)
Definition german_day : list (ascii -> bool) :=
  [is_digit; is_digit; is_char "."; is_digit; is_digit; is_char ".";
   is_digit; is_digit; is_digit; is_digit; is_char ","].

(** [\d{2}:\d{2}] *)
Definition german_time : list (ascii -> bool) :=
  [is_digit; is_digit; is_char ":"; is_digit; is_digit].

(** [day, \s*, time] at the head of [s]: the day text, the time text and
    the rest. The run of [\s*] is the longest one: a digit follows it. *)
Definition german_here (s : string) : option (string * string * string) :=
  match match_classes german_day s with
  | None => None
  | Some (day, r) =>
      let '(_, r1) := span is_space r in
      match match_classes german_time r1 with
      | Some (time, r2) => Some (day, time, r2)
      | None => None
      end
  end.

(** The pattern of [extractDateRange] at the head of [s]: the bracketed
    text and the rest. *)
Definition bracketed_here (s : string) : option (string * string) :=
  match s with
  | String c r =>
      if is_char "[" c then
        match german_here r with
        | Some (_, _, String c2 r2) =>
            if is_char "]" c2
            then Some (slice0 (String.length r - S (String.length r2)) r, r2)
            else None
        | _ => None
        end
      else None
  | EmptyString => None
  end.

(** The successive matches of the [g] pattern: [skip] units of the
    match found last are still to be passed. *)
Fixpoint scan_timestamps (skip : nat) (content : string) : list string :=
  match content with
  | EmptyString => []
  | String _ rest =>
      match skip with
      | S skip' => scan_timestamps skip' rest
      | O =>
          match bracketed_here content with
          | Some (m, _) => m :: scan_timestamps (S (String.length m)) rest
          | None => scan_timestamps 0 rest
          end
      end
  end.

Section Analysis.
Variable rt : Runtime.

(** [parseGermanDate]: the leftmost match in [dateStr]. *)
Fixpoint parseGermanDate (dateStr : string) : option JsDate :=
  match german_here dateStr with
  | Some (day, time, _) =>
      let num from len t := parseInt_digits (substring from len t) in
      Some (Date_of_fields rt (num 6%nat 4%nat day) (num 3%nat 2%nat day - 1)
              (num 0%nat 2%nat day) (num 0%nat 2%nat time) (num 3%nat 2%nat time))
  | None =>
      match dateStr with
      | EmptyString => None
      | String _ rest => parseGermanDate rest
      end
  end.

Record DateRange : Type := {
  range_oldest : Z;
  range_newest : Z;
  range_count : nat
}.

(** The loop of [extractDateRange] over the matches. *)
Fixpoint fold_dates (matches : list string) (oldest newest : option Z)
    (count : nat) : option Z * option Z * nat :=
  match matches with
  | [] => (oldest, newest, count)
  | m :: rest =>
      match parseGermanDate m with
      | Some (Some date) =>
          let oldest :=
            match oldest with
            | Some o => if date <? o then Some date else Some o
            | None => Some date
            end in
          let newest :=
            match newest with
            | Some n => if n <? date then Some date else Some n
            | None => Some date
            end in
          fold_dates rest oldest newest (S count)
      | _ => fold_dates rest oldest newest count
      end
  end.

(** [extractDateRange] on the content of the file. *)
Definition extractDateRange (content : string) : option DateRange :=
  match fold_dates (scan_timestamps 0 content) None None 0 with
  | (Some o, Some n, S c) =>
      Some {| range_oldest := o; range_newest := n; range_count := S c |}
  | _ => None
  end.

(** *** The report *)

Definition distance (t : Tier) (days : Z) : Z := Z.abs (tier_days t - days).

Definition findNearestTier (days : Z) : option Tier :=
  fold_left
    (fun best tier =>
       match best with
       | Some b => if distance tier days <? distance b days then Some tier else best
       | None => Some tier
       end)
    MS_RETENTION_TIERS None.

(** What follows the last slash. *)
Fixpoint basename (path : string) : string :=
  match path with
  | EmptyString => EmptyString
  | String c rest =>
      if existsb (is_char "/") (list_ascii_of_string rest) then basename rest
      else if is_char "/" c then rest else path
  end.

(** [s.replace(/\.md$/, empty)] *)
Fixpoint strip_md (s : string) : string :=
  if String.eqb s ".md" then EmptyString
  else match s with
       | EmptyString => EmptyString
       | String c rest => String c (strip_md rest)
       end.

Definition chat_name (filePath : string) : string :=
  str_map (fun c => if is_char underscore c then " "%char else c)
    (strip_md (basename filePath)).

(** [chatRanges.sort((a, b) => b.ageDays - a.ageDays)]: a stable sort,
    greatest age first. *)
Fixpoint insert_range (c : ChatDateRange) (sorted : list ChatDateRange)
    : list ChatDateRange :=
  match sorted with
  | [] => [c]
  | x :: rest =>
      if ageDays x <=? ageDays c then c :: x :: rest
      else x :: insert_range c rest
  end.

Definition sort_ranges (l : list ChatDateRange) : list ChatDateRange :=
  fold_right insert_range [] l.

(** The loop over the files: path and content of each. *)
Fixpoint collect_ranges (now : Z) (files : list (string * string))
    : list ChatDateRange :=
  match files with
  | [] => []
  | (filePath, content) :: rest =>
      match extractDateRange content with
      | None => collect_ranges now rest
      | Some range =>
          {| name := chat_name filePath;
             oldest := range_oldest range;
             newest := range_newest range;
             ageDays := (now - range_oldest range) / 86400000;
             messageCount := range_count range |}
          :: collect_ranges now rest
      end
  end.

Definition clusterThresholdDays : Z := 14.

Definition in_cluster (maxAge : Z) (c : ChatDateRange) : bool :=
  maxAge - clusterThresholdDays <=? ageDays c.

(** The dash of the two explanations, U+2014, as its three bytes in
    UTF-8. *)
Definition em_dash : string :=
  String (chr 226) (String (chr 128) (String (chr 148) EmptyString)).

Definition cluster_tail : string :=
  "suggesting this is your account start date or the Teams sidebar visibility window. "
  +:+ "Teams hides inactive chats from the sidebar " +:+ em_dash
  +:+ " older conversations may exist "
  +:+ "but weren't exported because they weren't visible. "
  +:+ "To find hidden chats: search for a contact name in Teams, then re-export.".

Definition cluster_explanation (size : nat) (clusterDate : string) (maxAge : Z)
    : string :=
  show_nat size +:+ " chats cluster around " +:+ clusterDate +:+ " (~"
  +:+ show_Z maxAge +:+ " days ago), " +:+ cluster_tail.

Definition generic_explanation (maxAge : Z) : string :=
  "Oldest exported messages are " +:+ show_Z maxAge +:+ " days old. "
  +:+ "This reflects what was visible in the Teams sidebar at export time. "
  +:+ "Teams hides inactive chats " +:+ em_dash
  +:+ " there may be older conversations accessible via search.".

Definition no_timestamps : string :=
  "No chat files with parseable timestamps found.".

(** [analyzeRetention]: [files] is what the glob finds, each path with the
    content of the file, and [now] the time of the call. *)
Definition analyzeRetention (files : list (string * string)) (now : Z)
    : VisibilityAnalysis :=
  let chatRanges := sort_ranges (collect_ranges now files) in
  match chatRanges with
  | [] =>
      {| chatsAnalyzed := length files;
         chatsWithDates := 0;
         oldestMessage := None;
         newestMessage := None;
         medianOldestAgeDays := 0;
         maxOldestAgeDays := 0;
         sidebarWindowDays := 0;
         explanation := no_timestamps;
         nearestRetentionTier := None;
         chatRanges := [] |}
  | oldestChat :: others =>
      let ages := map ageDays chatRanges in
      let maxAge := ageDays oldestChat in
      let medianAge := nth (Nat.div (length ages) 2) ages 0 in
      let newestChat :=
        fold_left (fun a b => if newest b <? newest a then a else b)
          others oldestChat in
      let nearest := findNearestTier maxAge in
      let oldestCluster := List.filter (in_cluster maxAge) chatRanges in
      let explanation :=
        if (3 <=? length oldestCluster)%nat then
          cluster_explanation (length oldestCluster)
            (toLocaleDateString_de rt
               (Some (oldest (hd oldestChat oldestCluster))))
            maxAge
        else generic_explanation maxAge in
      {| chatsAnalyzed := length files;
         chatsWithDates := length chatRanges;
         oldestMessage := Some (oldest oldestChat, name oldestChat);
         newestMessage := Some (newest newestChat, name newestChat);
         medianOldestAgeDays := medianAge;
         maxOldestAgeDays := maxAge;
         sidebarWindowDays := maxAge;
         explanation := explanation;
         nearestRetentionTier := nearest;
         chatRanges := chatRanges |}
  end.

End Analysis.

End Retention.

(** ** What the properties are stated with

    Predicates on names, texts, archives, batches and pages, and on runs of
    merges; none of them is part of the program. *)

Module ArchiveSpec.
Import Js Platform Markdown.

(** No two underscores in a row. *)
Fixpoint no_double_underscore (s : string) : bool :=
  match s with
  | String a ((String b _) as rest) =>
      negb (is_char underscore a && is_char underscore b)
      && no_double_underscore rest
  | _ => true
  end.

(** The first unit is an underscore. *)
Definition first_is_underscore (s : string) : bool :=
  match s with
  | String c _ => is_char underscore c
  | EmptyString => false
  end.

(** The last unit is an underscore. *)
Definition last_is_underscore (s : string) : bool :=
  match last_char s with
  | Some c => is_char underscore c
  | None => false
  end.

(** Neither in the replaced class nor a space. *)
Definition harmless (c : ascii) : bool := negb (hostile c) && negb (is_space c).

(** A unit the rules leave alone. *)
Definition plain (c : ascii) : bool :=
  harmless c && negb (is_char underscore c).

(** *** The file name, in the words of the specification *)

(** The hostile characters: slash, backslash, colon, star, question mark,
    double quote, the angle brackets and the bar. *)
Definition hostile_units : list ascii :=
  ["/"; "\"; ":"; "*"; "?"; chr 34; "<"; ">"; "|"]%char.

(** White space below 256: tab, line feed, vertical tab, form feed,
    carriage return, space and no-break space. *)
Definition white_space_codes : list nat := [9; 10; 11; 12; 13; 32; 160]%nat.

(** A unit the rules turn into an underscore or remove: hostile, white
    space or an underscore. *)
Definition filler (c : ascii) : bool :=
  existsb (Ascii.eqb c) hostile_units
  || existsb (Nat.eqb (code c)) white_space_codes
  || Ascii.eqb c "_".

(** The words of a name: its maximal runs of units that are not
    fillers. *)
Fixpoint name_words (s : string) : list string :=
  match s with
  | EmptyString => []
  | String c s' =>
      if filler c then name_words s'
      else
        match s' with
        | EmptyString => [String c EmptyString]
        | String d _ =>
            if filler d then String c EmptyString :: name_words s'
            else match name_words s' with
                 | w :: ws => String c w :: ws
                 | [] => [String c EmptyString]
                 end
        end
  end.

(** An [ExtractedMessage] from its four fields. *)
Definition message (i : Z) (a t c : string) : ExtractedMessage :=
  {| id := i; author := a; timestamp := t; contentHtml := c |}.

(** The lines of the text of one message. *)
Definition content_lines (m : ExtractedMessage) : list Line :=
  map ContentLine (split_lines (htmlToText (contentHtml m))).

(** No unit of [s] is a line feed. *)
Definition one_line (s : string) : bool :=
  str_forallb (fun c => negb (is_char nl c)) s.

(** No unit of [s] opens a tag. *)
Definition angle_free (s : string) : bool :=
  str_forallb (fun c => negb (is_char "<" c)) s.

(** The text holds nothing the pattern of [getLatestTimestamp] matches. *)
Definition marker_free (s : string) : bool :=
  match find_marker s with None => true | Some _ => false end.

(** The text is what the group of that pattern matches: the date part, then
    one or more units, none of them a space. *)
Definition marker_shaped (ts : string) : bool :=
  match match_classes date_T ts with
  | Some (_, EmptyString) => false
  | Some (_, r) => str_forallb not_space r
  | None => false
  end.

(** The content ends in a line that is the marker of [ts], and holds no
    marker before it. *)
Definition well_formed (content ts : string) : Prop :=
  exists body,
    content = body +:+ nl_s +:+ metadata_of ts +:+ nl_s
    /\ marker_free body = true
    /\ marker_shaped ts = true.

(** The archive is absent, or holds no marker, or ends in its only
    marker. *)
Definition archive_settled (fs : gmap string string) (path : string) : Prop :=
  forall content, fs !! path = Some content ->
    find_marker content = None \/ exists ts, well_formed content ts.

(** The archive is absent or holds no marker. *)
Definition unmarked (fs : gmap string string) (path : string) : Prop :=
  forall content, fs !! path = Some content -> find_marker content = None.

Section WithRuntime.
Variable rt : Runtime.

(** The local calendar day of a message, as the renderer compares it. *)
Definition day_of (m : ExtractedMessage) : string :=
  toDateString rt (Date_of_string rt (timestamp m)).

(** The timestamp of [m] is one the marker pattern reads back, and no
    line rendered for [m] holds a marker: not the day heading, not the
    label in full, not the time alone, not the text. *)
Definition message_quiet (m : ExtractedMessage) : bool :=
  marker_shaped (timestamp m)
  && marker_free (render_line (DayHeading (formatDate rt (timestamp m))))
  && marker_free
       (render_line (AuthorLabel (author m) (formatTimestamp (timestamp m))))
  && marker_free (render_line (Continuation (formatTimestamp (timestamp m))))
  && marker_free (htmlToText (contentHtml m)).

(** The line, rendered, holds no marker. *)
Definition line_quiet (l : Line) : Prop := marker_free (render_line l) = true.

(** [new Date(m.timestamp)] *)
Definition date_of (m : ExtractedMessage) : JsDate :=
  Date_of_string rt (timestamp m).

(** The content [saveChat] writes when messages remain. *)
Definition written_content (chatName now : string)
    (fs : gmap string string) (filePath : string)
    (newMessages : list ExtractedMessage) (lastMsg : ExtractedMessage)
    : string :=
  match fs !! filePath, getLatestTimestamp rt fs filePath with
  | Some existing, Some _ =>
      appended_export existing now (messagesToMarkdown rt newMessages)
        (metadata_of (timestamp lastMsg))
  | _, _ =>
      fresh_export chatName now (messagesToMarkdown rt newMessages)
        (metadata_of (timestamp lastMsg))
  end.

(** The last message of the batch has a time, and no message of the batch
    is later. *)
Definition latest_last (B : list ExtractedMessage) : bool :=
  match last B with
  | None => true
  | Some l =>
      match date_of l with
      | Some t => forallb (fun m => negb (date_gt (date_of m) (Some t))) B
      | None => false
      end
  end.

(** A batch of quiet messages whose last message is its latest. *)
Definition batch_settled (B : list ExtractedMessage) : Prop :=
  forallb message_quiet B = true /\ latest_last B = true.

(** One call of a run: the files after it, and the messages written so
    far. *)
Definition merge_step (chatName outputDir : string)
    (st : gmap string string * list ExtractedMessage)
    (call : list ExtractedMessage * string)
    : gmap string string * list ExtractedMessage :=
  (snd (saveChat rt chatName (fst call) outputDir (snd call) (fst st)),
   snd st
   ++ newer_than rt
        (getLatestTimestamp rt (fst st) (archive_path rt chatName outputDir))
        (fst call)).

(** A run of calls, each a batch with the time of the call. *)
Definition merge_all (chatName outputDir : string)
    (calls : list (list ExtractedMessage * string))
    (fs : gmap string string)
    : gmap string string * list ExtractedMessage :=
  fold_left (merge_step chatName outputDir) calls (fs, []).

(** A call with a settled batch, at a time that reads as no marker. *)
Definition call_settled (call : list ExtractedMessage * string) : Prop :=
  batch_settled (fst call) /\ marker_free (snd call) = true.

(** The archive ends in its only marker, which is the time of a message
    of [log], and no message of [log] is later. *)
Definition cursor_is_latest (fs : gmap string string) (path : string)
    (log : list ExtractedMessage) : Prop :=
  exists content l t,
    fs !! path = Some content
    /\ well_formed content (timestamp l)
    /\ In l log
    /\ date_of l = Some t
    /\ getLatestTimestamp rt fs path = Some (Some t)
    /\ forall m, In m log -> date_gt (date_of m) (Some t) = false.

(** What holds of the files and the log all along a run. *)
Definition merge_inv (path : string)
    (st : gmap string string * list ExtractedMessage) : Prop :=
  (snd st = [] /\ unmarked (fst st) path) \/ cursor_is_latest (fst st) path (snd st).

End WithRuntime.

End ArchiveSpec.

Module ExtractSpec.
Import Js Platform Markdown Extract.

(** What the map holds once the nodes [done] have been indexed. *)
Definition indexes (m : list (Z * Node)) (done : list Node) : Prop :=
  List.NoDup (map fst m)
  /\ forall key n, In (key, n) m <-> List.find (eligible key) done = Some n.

(** The order the entries are sorted in. *)
Definition key_le (a b : Z * Node) : Prop := fst a <= fst b.

(** What has been collected once the priming collection and [k] turns of
    the upward loop are over. *)
Fixpoint seen (page : Page) (k : nat) : list Node :=
  match k with
  | O => initial_children page ++ revealed page 0
  | S k' => seen page k' ++ revealed page (S k')
  end.

Section WithRuntime.
Variable rt : Runtime.

(** The oldest time among what has been collected after [k] turns. *)
Definition oldest_seen (page : Page) (k : nat) : option JsDate :=
  getOldestTimestamp rt (seen page k).

(** The oldest time seen is not the same from any turn to the next. *)
Definition keeps_changing (page : Page) : Prop :=
  forall k,
    match oldest_seen page k, oldest_seen page (S k) with
    | Some p, Some c => time_differs c p = true
    | _, _ => True
    end.

(** The oldest time seen is never at or before the cutoff. *)
Definition never_reaches (cutoff : option JsDate) (page : Page) : Prop :=
  forall k,
    match cutoff, oldest_seen page (S k) with
    | Some c, Some o => date_le o c = false
    | _, _ => True
    end.

(** No progress log throws: at no fifth turn is the oldest time seen one
    the host cannot read. *)
Definition logs_readable (page : Page) : Prop :=
  forall k, log_throws (S k) (oldest_seen page (S k)) = false.

(** The state of the upward loop after [k] turns without a stall. *)
Definition running (page : Page) (k : nat) (st : UpState) : Prop :=
  up_collected st = seen page k
  /\ up_scrollIter st = k
  /\ (up_prevOldest st = None \/ up_prevOldest st = oldest_seen page k).

(** The nodes the structured data is extracted from. *)
Definition trimmed (cutoffDate : option JsDate) (collected : list Node)
    : list Node :=
  match cutoffDate with
  | Some c => List.filter (in_range rt c) (sequence collected)
  | None => sequence collected
  end.

End WithRuntime.

End ExtractSpec.

Module RetentionSpec.
Import Js Platform Markdown Retention.

(** Some opening bracket of [s] has a full stop three units further on,
    as in the bracketed day-first form. *)
Fixpoint dotted_bracket (s : string) : bool :=
  match s with
  | EmptyString => false
  | String c rest =>
      (is_char "[" c
       && match rest with
          | String _ (String _ (String d _)) => is_char "." d
          | _ => false
          end)
      || dotted_bracket rest
  end.

(** [a] stands before [b] in the report. *)
Definition older_first (a b : ChatDateRange) : Prop := ageDays b <= ageDays a.

(** The words the clustering explanation is recognised by. *)
Definition cluster_phrase : string := " chats cluster around ".

(** The suggestion of a shared visibility boundary. *)
Definition boundary_phrase : string :=
  "suggesting this is your account start date or the Teams sidebar visibility window".

(** [s] holds [phrase]. *)
Definition holds (phrase s : string) : Prop :=
  exists before after, s = before +:+ phrase +:+ after.

(** [phrase] stands somewhere in [s]. *)
Fixpoint occurs (phrase s : string) : bool :=
  starts_with phrase s
  || match s with
     | EmptyString => false
     | String _ s' => occurs phrase s'
     end.

(** The generic explanation, for a greatest age written [n] in decimal;
    the dash is U+2014 in UTF-8. *)
Definition oldest_is_n_days (n : string) : string :=
  "Oldest exported messages are " +:+ n +:+ " days old. "
  +:+ "This reflects what was visible in the Teams sidebar at export time. "
  +:+ "Teams hides inactive chats "
  +:+ String (chr 226) (String (chr 128) (String (chr 148) EmptyString))
  +:+ " there may be older conversations accessible via search.".

(** The words the generic explanation opens with. *)
Definition oldest_phrase : string := "Oldest exported messages are ".

(** The explanation of a report without dated archive. *)
Definition nothing_dated : string :=
  "No chat files with parseable timestamps found.".

(** No unit of [p] is [d]. *)
Definition foreign (p : string) (d : ascii) : bool :=
  str_forallb (fun c => negb (Ascii.eqb c d)) p.

(** A unit of a number in decimal: a digit or the minus sign. *)
Definition numeral (c : ascii) : bool := is_digit c || is_char "-" c.

End RetentionSpec.

(** ** Worked inputs *)

Module Examples.
Import Js Platform Markdown Extract Retention ArchiveSpec.

(** The batch of the specification's day-grouping example, and one of
    two messages on the same day. *)
Definition two_day_batch : list ExtractedMessage :=
  [message 1 "Alice" "2025-06-15T10:00:00Z" "Hello";
   message 2 "Alice" "2025-06-16T10:00:00Z" "Hello"].

Definition one_day_batch : list ExtractedMessage :=
  [message 1 "Alice" "2025-06-15T10:30:00Z" "First";
   message 2 "Alice" "2025-06-15T10:31:00Z" "Second"].

(** The batch of the day-grouping example, its author being the empty
    string. *)
Definition unnamed_batch : list ExtractedMessage :=
  [message 1 "" "2025-06-15T10:00:00Z" "Hello";
   message 2 "" "2025-06-16T10:00:00Z" "Hello"].

(** Two export times. *)
Definition sample_now : string := "2025-07-01T00:00:00.000Z".
Definition later_now : string := "2025-07-02T00:00:00.000Z".

(** A batch in ascending order of id whose times are not ascending. *)
Definition unordered_batch : list ExtractedMessage :=
  [message 1 "Alice" "2025-06-16T10:00:00Z" "Hello";
   message 2 "Alice" "2025-06-15T10:00:00Z" "Hello"].

(** The two batches of the repository's append test. *)
Definition first_batch : list ExtractedMessage :=
  [message 1 "Alice" "2025-06-15T10:00:00.000Z" "First"].

Definition second_batch : list ExtractedMessage :=
  [message 1 "Alice" "2025-06-15T10:00:00.000Z" "First";
   message 2 "Alice" "2025-06-15T11:00:00.000Z" "Second"].

(** An archive on disk without marker. *)
Definition unmarked_files : gmap string string :=
  {[ "out/Chat.md" := "# Chat" +:+ nl_s +:+ "Hello world" +:+ nl_s ]}.

(** A message whose time the host cannot read. *)
Definition unreadable_node : Node :=
  {| body_id := Some 1;
     animated_gif := false;
     author_name := Some "Alice";
     time_datetime := Some "yesterday";
     body_text := Some "Hello" |}.

(** A page that shows that one message and never changes. *)
Definition still_page : Page :=
  {| chat_pane := true;
     initial_children := [unreadable_node];
     scroll_container := true;
     revealed := fun _ => [];
     at_bottom := fun _ => false |}.

(** A child of the pane that has no time element, and a page that shows
    it and never changes. *)
Definition timeless_node : Node :=
  {| body_id := Some 1;
     animated_gif := false;
     author_name := Some "Alice";
     time_datetime := None;
     body_text := Some "Hello" |}.

Definition timeless_page : Page :=
  {| chat_pane := true;
     initial_children := [timeless_node];
     scroll_container := true;
     revealed := fun _ => [];
     at_bottom := fun _ => false |}.

(** A node with a message body and no author. *)
Definition authorless_node : Node :=
  {| body_id := Some 1;
     animated_gif := false;
     author_name := None;
     time_datetime := Some "2025-06-15T10:00:00Z";
     body_text := Some "Hello" |}.

(** A node with all the script asks for. *)
Definition complete_node : Node :=
  {| body_id := Some 2;
     animated_gif := false;
     author_name := Some " Alice ";
     time_datetime := Some "2025-06-15T11:00:00Z";
     body_text := Some "Hello again" |}.

(** A page with that node only, and nothing to scroll. *)
Definition authorless_page : Page :=
  {| chat_pane := true;
     initial_children := [authorless_node];
     scroll_container := false;
     revealed := fun _ => [];
     at_bottom := fun _ => true |}.

(** The export fixture of the repository's analyzer tests. *)
Definition chatMarkdown (name : string) (timestamps : list string) : string :=
  join nl_s
    (["# " +:+ name; ""; "Exported: 15.06.2025, 12:00"; ""]
     ++ concat (map (fun ts => ["**Alice** [" +:+ ts +:+ "]:"; "Hello"; ""])
                  timestamps)).

(** The fixture of the test for ISO timestamps, and the one of the test
    for the older day-first form. *)
Definition iso_fixture : string :=
  chatMarkdown "Alice" ["2025-06-15T10:30:00Z"; "2025-06-15T11:00:00Z"].

Definition legacy_fixture : string :=
  chatMarkdown "Legacy" ["15.06.2025, 10:30"; "15.06.2025, 11:00"].

(** An archive in the day-first form whose oldest message is of [day]. *)
Definition dated (file day : string) : string * string :=
  (file, chatMarkdown file [day; "15.06.2025, 12:00"]).

(** Four archives, three of them starting within a fortnight of the
    oldest; and the same with one of those three starting later. *)
Definition clustered_files : list (string * string) :=
  [dated "a_1.md" "01.01.2025, 10:00"; dated "b.md" "02.01.2025, 10:00";
   dated "c.md" "10.01.2025, 10:00"; dated "d.md" "10.03.2025, 10:00"].

Definition scattered_files : list (string * string) :=
  [dated "a_1.md" "01.01.2025, 10:00"; dated "b.md" "02.02.2025, 10:00";
   dated "c.md" "10.01.2025, 10:00"; dated "d.md" "10.03.2025, 10:00"].

End Examples.

(** ** Facts about strings *)

Module StringFacts.
Import Js.

Lemma append_nil_r (s : string) : s +:+ EmptyString = s.
Proof. induction s as [|c s IH]; simpl; [reflexivity | now rewrite IH]. Qed.

Lemma append_assoc (a b c : string) : (a +:+ b) +:+ c = a +:+ (b +:+ c).
Proof. induction a as [|x a IH]; simpl; [reflexivity | now rewrite IH]. Qed.

Lemma append_cons_nonempty (a : string) (c : ascii) (b : string) :
  a +:+ String c b <> EmptyString.
Proof. destruct a; discriminate. Qed.

Lemma length_append (a b : string) :
  String.length (a +:+ b) = (String.length a + String.length b)%nat.
Proof. induction a as [|x a IH]; simpl; [reflexivity | now rewrite IH]. Qed.

Lemma length_slice0 (n : nat) (s : string) :
  String.length (slice0 n s) = Nat.min n (String.length s).
Proof.
  revert s; induction n as [|n IH]; intros [|c s]; simpl; auto.
Qed.

Lemma slice0_all (n : nat) (s : string) :
  (String.length s <= n)%nat -> slice0 n s = s.
Proof.
  revert s; induction n as [|n IH]; intros [|c s]; simpl; intros H;
    try reflexivity; try lia.
  f_equal; apply IH; lia.
Qed.

Lemma length_repeat_char (c : ascii) (n : nat) :
  String.length (repeat_char c n) = n.
Proof. induction n; simpl; congruence. Qed.

Lemma forallb_slice0 (p : ascii -> bool) (n : nat) (s : string) :
  str_forallb p s = true -> str_forallb p (slice0 n s) = true.
Proof.
  revert s; induction n as [|n IH]; intros [|c s]; simpl; auto.
  intros [Hc Hs]%andb_prop. rewrite Hc; simpl; auto.
Qed.

Lemma forallb_append (p : ascii -> bool) (a b : string) :
  str_forallb p (a +:+ b) = str_forallb p a && str_forallb p b.
Proof.
  induction a as [|x a IH]; simpl; [reflexivity|].
  now rewrite IH, andb_assoc.
Qed.

Lemma forallb_repeat_char (p : ascii -> bool) (c : ascii) (n : nat) :
  p c = true -> str_forallb p (repeat_char c n) = true.
Proof. intros H; induction n; simpl; [reflexivity | now rewrite H]. Qed.

Lemma forallb_weaken (p q : ascii -> bool) (s : string) :
  (forall c, p c = true -> q c = true) ->
  str_forallb p s = true -> str_forallb q s = true.
Proof.
  intros Hpq; induction s as [|c s IH]; simpl; [reflexivity|].
  intros [Hc Hs]%andb_prop. now rewrite (Hpq _ Hc), IH.
Qed.

Lemma eqb_char_refl (c : ascii) : Ascii.eqb c c = true.
Proof. apply Ascii.eqb_refl. Qed.

Lemma is_char_true (a c : ascii) : is_char a c = true <-> a = c.
Proof. apply Ascii.eqb_eq. Qed.

Lemma is_char_false (a c : ascii) : is_char a c = false <-> a <> c.
Proof. apply Ascii.eqb_neq. Qed.

End StringFacts.

(** ** The archive name *)

Module SanitizeFacts.
Import Js Markdown ArchiveSpec StringFacts.

Lemma harmless_underscore : harmless underscore = true.
Proof. reflexivity. Qed.

Lemma replace_hostile_clean (s : string) :
  str_forallb (fun c => negb (hostile c)) (replace_hostile s) = true.
Proof.
  unfold replace_hostile.
  induction s as [|c s IH]; simpl; [reflexivity|].
  rewrite IH, andb_true_r.
  destruct (hostile c) eqn:E; [reflexivity | now rewrite E].
Qed.

Lemma collapse_runs_forallb (p q0 q : ascii -> bool) (b : bool) (s : string) :
  q underscore = true ->
  (forall c, q0 c = true -> p c = false -> q c = true) ->
  str_forallb q0 s = true ->
  str_forallb q (collapse_runs p b s) = true.
Proof.
  intros Hu Hq; revert b; induction s as [|c s IH]; intros b; simpl;
    [reflexivity|].
  intros [Hc Hs]%andb_prop.
  destruct (p c) eqn:Ep.
  - destruct b; simpl; [|rewrite Hu; simpl]; apply IH; assumption.
  - simpl. rewrite (Hq c Hc Ep); simpl. apply IH; assumption.
Qed.

Lemma collapse_underscores_shape (b : bool) (s : string) :
  no_double_underscore (collapse_runs (is_char underscore) b s) = true
  /\ (b = true ->
      first_is_underscore (collapse_runs (is_char underscore) b s) = false).
Proof.
  revert b; induction s as [|c s IH]; intros b; simpl.
  - split; [reflexivity | reflexivity].
  - destruct (is_char underscore c) eqn:Ec.
    + destruct b.
      * apply IH.
      * destruct (IH true) as [Hd Hf]. specialize (Hf eq_refl).
        split; [|discriminate].
        simpl. destruct (collapse_runs (is_char underscore) true s) as [|d r] eqn:Er;
          [reflexivity|].
        simpl in Hf. rewrite Hf. simpl. exact Hd.
    + destruct (IH false) as [Hd _].
      split.
      * simpl. destruct (collapse_runs (is_char underscore) false s) as [|d r] eqn:Er;
          [reflexivity|].
        rewrite Ec. simpl. exact Hd.
      * intros _. simpl. exact Ec.
Qed.

Lemma no_double_tail (c : ascii) (s : string) :
  no_double_underscore (String c s) = true -> no_double_underscore s = true.
Proof.
  simpl. destruct s as [|d r]; [reflexivity|].
  intros [_ H]%andb_prop. exact H.
Qed.

Lemma strip_leading_shape (s : string) :
  no_double_underscore s = true ->
  no_double_underscore (strip_leading_underscore s) = true
  /\ first_is_underscore (strip_leading_underscore s) = false.
Proof.
  intros Hd. destruct s as [|c s]; [split; reflexivity|].
  unfold strip_leading_underscore.
  destruct (is_char underscore c) eqn:Ec.
  - split; [exact (no_double_tail _ _ Hd)|].
    destruct s as [|d r]; [reflexivity|].
    simpl in Hd. rewrite Ec in Hd. simpl in Hd.
    apply andb_prop in Hd as [H1 _]. apply negb_true_iff in H1. exact H1.
  - split; [exact Hd | exact Ec].
Qed.

Lemma strip_trailing_shape (s : string) :
  no_double_underscore s = true ->
  no_double_underscore (strip_trailing_underscore s) = true
  /\ last_is_underscore (strip_trailing_underscore s) = false
  /\ (first_is_underscore s = false ->
      first_is_underscore (strip_trailing_underscore s) = false).
Proof.
  unfold last_is_underscore.
  induction s as [|c s IH]; [split; [|split]; reflexivity|].
  intros Hd. pose proof (no_double_tail _ _ Hd) as Hs.
  destruct (IH Hs) as (I1 & I2 & _).
  destruct s as [|d r].
  - simpl. destruct (is_char underscore c) eqn:Ec; simpl.
    + split; [|split]; reflexivity.
    + rewrite Ec. split; [|split]; auto.
  - change (strip_trailing_underscore (String c (String d r)))
      with (String c (strip_trailing_underscore (String d r))).
    destruct (strip_trailing_underscore (String d r)) as [|e t] eqn:Et.
    + (* the tail was a lone underscore *)
      assert (r = EmptyString /\ is_char underscore d = true) as [-> Hdu].
      { destruct r as [|x y]; simpl in Et.
        - destruct (is_char underscore d); [auto | discriminate].
        - discriminate. }
      simpl in Hd. rewrite Hdu, andb_true_r, andb_true_r in Hd.
      apply negb_true_iff in Hd.
      split; [reflexivity|]. split; [simpl; exact Hd | intros H; exact H].
    + split; [|split].
      * assert (e = d) as ->.
        { destruct r as [|x y]; simpl in Et.
          - destruct (is_char underscore d); [discriminate | congruence].
          - congruence. }
        simpl. simpl in Hd. apply andb_prop in Hd as [Hcd _].
        rewrite Hcd. exact I1.
      * exact I2.
      * intros H; exact H.
Qed.

Lemma no_double_slice0 (n : nat) (s : string) :
  no_double_underscore s = true -> no_double_underscore (slice0 n s) = true.
Proof.
  revert s; induction n as [|n IH]; intros [|c s]; try reflexivity.
  intros Hd. pose proof (IH s (no_double_tail _ _ Hd)) as Hs.
  destruct s as [|d r]; [destruct n; reflexivity|].
  destruct n as [|n]; [reflexivity|].
  simpl in *. apply andb_prop in Hd as [Hcd _]. rewrite Hcd. exact Hs.
Qed.

Lemma first_slice0 (n : nat) (s : string) :
  first_is_underscore s = false -> first_is_underscore (slice0 n s) = false.
Proof. destruct n, s; simpl; auto. Qed.

Lemma forallb_strip_leading (p : ascii -> bool) (s : string) :
  str_forallb p s = true -> str_forallb p (strip_leading_underscore s) = true.
Proof.
  destruct s as [|c s]; simpl; [reflexivity|].
  intros [Hc Hs]%andb_prop.
  destruct (is_char underscore c); simpl; [exact Hs | now rewrite Hc].
Qed.

Lemma forallb_strip_trailing (p : ascii -> bool) (s : string) :
  str_forallb p s = true -> str_forallb p (strip_trailing_underscore s) = true.
Proof.
  induction s as [|c s IH]; [reflexivity|].
  intros [Hc Hs]%andb_prop.
  destruct s as [|d r].
  - simpl. destruct (is_char underscore c); simpl; [reflexivity | now rewrite Hc].
  - change (strip_trailing_underscore (String c (String d r)))
      with (String c (strip_trailing_underscore (String d r))).
    simpl str_forallb at 1. rewrite Hc. simpl. exact (IH Hs).
Qed.

Lemma collapse_runs_none (p : ascii -> bool) (b : bool) (s : string) :
  str_forallb (fun c => negb (p c)) s = true -> collapse_runs p b s = s.
Proof.
  revert b; induction s as [|c s IH]; intros b; simpl; [reflexivity|].
  intros [Hc Hs]%andb_prop. apply negb_true_iff in Hc. rewrite Hc.
  f_equal. apply IH, Hs.
Qed.

Lemma replace_hostile_none (s : string) :
  str_forallb (fun c => negb (hostile c)) s = true -> replace_hostile s = s.
Proof.
  unfold replace_hostile.
  induction s as [|c s IH]; simpl; [reflexivity|].
  intros [Hc Hs]%andb_prop. apply negb_true_iff in Hc. rewrite Hc.
  f_equal. apply IH, Hs.
Qed.

Lemma strip_trailing_none (s : string) :
  str_forallb (fun c => negb (is_char underscore c)) s = true ->
  strip_trailing_underscore s = s.
Proof.
  induction s as [|c s IH]; [reflexivity|].
  intros [Hc Hs]%andb_prop. apply negb_true_iff in Hc.
  destruct s as [|d r].
  - simpl. now rewrite Hc.
  - change (strip_trailing_underscore (String c (String d r)))
      with (String c (strip_trailing_underscore (String d r))).
    f_equal. apply IH, Hs.
Qed.

Lemma plain_parts (c : ascii) :
  plain c = true ->
  hostile c = false /\ is_space c = false /\ is_char underscore c = false.
Proof.
  unfold plain, harmless.
  intros [[H1 H2]%andb_prop H3]%andb_prop.
  now apply negb_true_iff in H1, H2, H3.
Qed.

Ltac plain_side Hp :=
  revert Hp; apply forallb_weaken;
  let x := fresh "x" in let Hx := fresh "Hx" in
  intros x Hx; apply plain_parts in Hx as (?H & ?H & ?H);
  repeat match goal with H : _ = false |- _ => rewrite H; clear H end;
  reflexivity.

(** A name of plain units only is kept, up to the cap. *)
Lemma sanitizeFilename_plain (name : string) :
  str_forallb plain name = true -> sanitizeFilename name = slice0 200 name.
Proof.
  intros Hp. unfold sanitizeFilename, sanitized_untruncated.
  rewrite replace_hostile_none by plain_side Hp.
  rewrite (collapse_runs_none is_space false name) by plain_side Hp.
  rewrite (collapse_runs_none (is_char underscore) false name)
    by plain_side Hp.
  assert (strip_leading_underscore name = name) as ->.
  { destruct name as [|c r]; [reflexivity|].
    simpl in Hp. apply andb_prop in Hp as [Hc _].
    apply plain_parts in Hc as (_ & _ & Hc).
    simpl. now rewrite Hc. }
  rewrite strip_trailing_none by plain_side Hp.
  reflexivity.
Qed.

Lemma untruncated_harmless (name : string) :
  str_forallb harmless (sanitized_untruncated name) = true.
Proof.
  unfold sanitized_untruncated.
  apply forallb_strip_trailing, forallb_strip_leading.
  apply collapse_runs_forallb with (q0 := harmless);
    [reflexivity | auto |].
  apply collapse_runs_forallb with (q0 := fun c => negb (hostile c));
    [reflexivity | | apply replace_hostile_clean].
  intros c Hc Hs. unfold harmless. now rewrite Hc, Hs.
Qed.

Lemma untruncated_shape (name : string) :
  no_double_underscore (sanitized_untruncated name) = true
  /\ first_is_underscore (sanitized_untruncated name) = false
  /\ last_is_underscore (sanitized_untruncated name) = false.
Proof.
  unfold sanitized_untruncated.
  set (s := collapse_runs (is_char underscore) false _).
  assert (no_double_underscore s = true) as Hs
    by apply collapse_underscores_shape.
  destruct (strip_leading_shape s Hs) as [H1 H2].
  destruct (strip_trailing_shape _ H1) as (H3 & H4 & H5).
  auto.
Qed.

(** *** The words of a name *)

Lemma filler_classes (c : ascii) :
  filler c = hostile c || is_space c || is_char underscore c.
Proof. destruct c as [[] [] [] [] [] [] [] []]; reflexivity. Qed.

Lemma hostile_not_space (c : ascii) : hostile c = true -> is_space c = false.
Proof. destruct c as [[] [] [] [] [] [] [] []]; try reflexivity; discriminate. Qed.

Lemma hostile_not_underscore (c : ascii) :
  hostile c = true -> is_char underscore c = false.
Proof. destruct c as [[] [] [] [] [] [] [] []]; try reflexivity; discriminate. Qed.

Lemma space_not_underscore (c : ascii) :
  is_space c = true -> is_char underscore c = false.
Proof. destruct c as [[] [] [] [] [] [] [] []]; try reflexivity; discriminate. Qed.

Lemma underscore_parts :
  hostile underscore = false /\ is_space underscore = false
  /\ is_char underscore underscore = true.
Proof. repeat split. Qed.

(** The three replacements together: every maximal run of fillers
    becomes one underscore. *)
Lemma three_passes (b2 b : bool) (s : string) :
  (b2 = true -> b = true) ->
  collapse_runs (is_char underscore) b
    (collapse_runs is_space b2 (replace_hostile s))
  = collapse_runs filler b s.
Proof.
  unfold replace_hostile. revert b2 b.
  induction s as [|c s IH]; intros b2 b Hb; [reflexivity|].
  cbn [str_map collapse_runs]. rewrite (filler_classes c).
  destruct underscore_parts as (Hu1 & Hu2 & Hu3).
  destruct (hostile c) eqn:Eh.
  - rewrite Hu2. cbn [collapse_runs orb]. rewrite Hu3.
    rewrite (IH false true) by discriminate. reflexivity.
  - destruct (is_space c) eqn:Es.
    + cbn [orb]. destruct b2.
      * rewrite (Hb eq_refl). apply IH. auto.
      * cbn [collapse_runs]. rewrite Hu3.
        rewrite (IH true true) by reflexivity. reflexivity.
    + cbn [collapse_runs orb].
      destruct (is_char underscore c) eqn:Eu.
      * rewrite (IH false true) by discriminate. reflexivity.
      * rewrite (IH false false) by discriminate. reflexivity.
Qed.

Lemma not_filler_parts (c : ascii) :
  filler c = false ->
  hostile c = false /\ is_space c = false /\ is_char underscore c = false.
Proof.
  rewrite filler_classes.
  destruct (hostile c), (is_space c), (is_char underscore c);
    try discriminate; auto.
Qed.

Lemma strip_trailing_cons (c : ascii) (t : string) :
  is_char underscore c = false ->
  strip_trailing_underscore (String c t) = String c (strip_trailing_underscore t).
Proof. intros Hc. destruct t; simpl; [now rewrite Hc | reflexivity]. Qed.

Lemma strip_trailing_underscored (t : string) :
  strip_trailing_underscore (String underscore t)
  = match t with
    | EmptyString => EmptyString
    | _ => String underscore (strip_trailing_underscore t)
    end.
Proof. destruct t; reflexivity. Qed.

Lemma name_words_nil (s : string) :
  name_words s = [] <-> collapse_runs filler true s = EmptyString.
Proof.
  induction s as [|c s IH]; [split; reflexivity|].
  cbn [name_words collapse_runs].
  destruct (filler c); [exact IH|].
  split; [|discriminate].
  destruct s as [|d r]; [discriminate|].
  destruct (filler d); [discriminate|].
  destruct (name_words (String d r)); discriminate.
Qed.

Lemma join_head (sep : string) (c : ascii) (w : string) (ws : list string) :
  join sep (String c w :: ws) = String c (join sep (w :: ws)).
Proof. destruct ws; reflexivity. Qed.

(** A run of fillers in front being dropped, what is left of the name
    after the replacements and the trim at the end is its words with one
    underscore between them. *)
Lemma collapsed_words (s : string) :
  strip_trailing_underscore (collapse_runs filler true s)
  = join "_" (name_words s).
Proof.
  induction s as [|c s IH]; [reflexivity|].
  cbn [collapse_runs name_words].
  destruct (filler c) eqn:Ec; [exact IH|].
  apply not_filler_parts in Ec as Hc. destruct Hc as (_ & _ & Hcu).
  rewrite (strip_trailing_cons c _ Hcu).
  destruct s as [|d r]; [reflexivity|].
  cbn [collapse_runs] in IH |- *.
  destruct (filler d) eqn:Ed.
  - cbn [name_words] in IH. rewrite Ed in IH.
    rewrite strip_trailing_underscored.
    destruct (collapse_runs filler true r) as [|x t] eqn:Ex.
    + apply name_words_nil in Ex.
      cbn [name_words]. rewrite Ed, Ex. reflexivity.
    + rewrite IH.
      destruct (name_words (String d r)) as [|w ws] eqn:Ew.
      * exfalso. cbn [name_words] in Ew. rewrite Ed in Ew.
        apply name_words_nil in Ew. congruence.
      * cbn [name_words] in Ew. rewrite Ed in Ew. rewrite Ew. reflexivity.
  - rewrite IH.
    destruct (name_words (String d r)) as [|w ws] eqn:Ew.
    + exfalso. apply name_words_nil in Ew.
      cbn [collapse_runs] in Ew. rewrite Ed in Ew. discriminate.
    + now rewrite join_head.
Qed.

Lemma collapse_runs_ext (p q : ascii -> bool) (b : bool) (s : string) :
  (forall c, p c = q c) -> collapse_runs p b s = collapse_runs q b s.
Proof.
  intros H. revert b. induction s as [|c s IH]; intros b; simpl; [reflexivity|].
  rewrite H. destruct (q c); [destruct b|]; now rewrite IH.
Qed.

Lemma untruncated_words (name : string) :
  sanitized_untruncated name = join "_" (name_words name).
Proof.
  unfold sanitized_untruncated.
  rewrite (three_passes false false name) by discriminate.
  destruct name as [|c s]; [reflexivity|].
  cbn [collapse_runs name_words].
  destruct (filler c) eqn:Ec.
  - cbn [strip_leading_underscore].
    change (is_char underscore underscore) with true. cbv iota.
    apply collapsed_words.
  - apply not_filler_parts in Ec as Hc. destruct Hc as (_ & _ & Hcu).
    cbn [strip_leading_underscore]. rewrite Hcu.
    pose proof (collapsed_words (String c s)) as H.
    cbn [collapse_runs name_words] in H. rewrite Ec in H. exact H.
Qed.

(** The words of a name are not empty and hold no filler, and together
    they are the name without its fillers. *)
Lemma name_words_units (s : string) :
  Forall (fun w => w <> EmptyString
                   /\ str_forallb (fun c => negb (filler c)) w = true)
    (name_words s)
  /\ List.concat (map list_ascii_of_string (name_words s))
     = List.filter (fun c => negb (filler c)) (list_ascii_of_string s).
Proof.
  induction s as [|c s [IHw IHc]]; [split; [constructor | reflexivity]|].
  cbn [name_words list_ascii_of_string List.filter].
  destruct (filler c) eqn:Ec; cbn [negb]; [split; assumption|].
  destruct s as [|d r].
  - split; [|reflexivity].
    repeat constructor; [discriminate | simpl; now rewrite Ec].
  - destruct (filler d) eqn:Ed.
    + split.
      * constructor; [|exact IHw].
        split; [discriminate | simpl; now rewrite Ec].
      * cbn [map List.concat list_ascii_of_string]. rewrite IHc. reflexivity.
    + destruct (name_words (String d r)) as [|w ws] eqn:Ew.
      * exfalso. cbn [name_words] in Ew. rewrite Ed in Ew.
        destruct r as [|e r']; [discriminate|].
        destruct (filler e); [discriminate|].
        destruct (name_words (String e r')); discriminate.
      * apply List.Forall_cons_iff in IHw as [[Hw1 Hw2] Hws]. split.
        -- constructor; [|exact Hws].
           split; [discriminate | simpl; now rewrite Ec, Hw2].
        -- cbn [map List.concat list_ascii_of_string] in IHc |- *.
           rewrite <- IHc. reflexivity.
Qed.
(** C9. [sanitizeFilename] turns every hostile unit into an underscore,
    makes one underscore of every run of white space and of every run of
    underscores, removes an underscore at either end and keeps the first
    200 units: for every name (of code units below 256) the result is the
    words of the name, its maximal runs of units that are neither
    hostile, white space nor underscore, with one underscore between
    them, cut to 200 units. So the examples of the specification and of
    the repository's tests hold; the result has at most 200 units, none
    hostile and none white space, no two underscores in a row and no
    underscore in front; the name before the cut has no underscore at its
    end either; and a name without any such unit is kept as it is up to
    the cut, so that 300 of them give exactly 200. *)
Theorem sanitizeFilename_spec :
  sanitizeFilename ("foo/bar\baz:qux*" +:+ String dquote "<>|")
    = "foo_bar_baz_qux"
  /\ sanitizeFilename "_hello_" = "hello"
  /\ String.length (sanitizeFilename (repeat_char "a" 300)) = 200%nat
  /\ sanitizeFilename "hello   world__test" = "hello_world_test"
  /\ sanitizeFilename "what?now" = "what_now"
  /\ sanitizeFilename "***" = EmptyString
  /\ (forall name,
        sanitizeFilename name = slice0 200 (join "_" (name_words name))
        /\ (String.length (sanitizeFilename name) <= 200)%nat
        /\ str_forallb (fun c => negb (filler c) || Ascii.eqb c "_")
             (sanitizeFilename name) = true
        /\ str_forallb harmless (sanitizeFilename name) = true
        /\ no_double_underscore (sanitizeFilename name) = true
        /\ first_is_underscore (sanitizeFilename name) = false
        /\ last_is_underscore (join "_" (name_words name)) = false
        /\ last_is_underscore (sanitized_untruncated name) = false)
  /\ (forall name,
        str_forallb (fun c => negb (filler c)) name = true ->
        sanitizeFilename name = slice0 200 name
        /\ (String.length name = 300%nat ->
            String.length (sanitizeFilename name) = 200%nat)).
Proof.
  repeat (split; [reflexivity|]).
  split.
  - intros name.
    destruct (untruncated_shape name) as (Hd & Hf & Hl).
    pose proof (untruncated_harmless name) as Hh.
    split; [unfold sanitizeFilename; now rewrite untruncated_words|].
    split; [unfold sanitizeFilename; rewrite length_slice0; lia|].
    split.
    { apply forallb_slice0. revert Hh. apply forallb_weaken.
      intros c [Hc1 Hc2]%andb_prop. rewrite filler_classes.
      apply negb_true_iff in Hc1, Hc2. rewrite Hc1, Hc2.
      unfold is_char, underscore. rewrite Ascii.eqb_sym.
      now destruct (Ascii.eqb c "_"). }
    split; [apply forallb_slice0, Hh|].
    split; [apply no_double_slice0, Hd|].
    split; [apply first_slice0, Hf|].
    split; [now rewrite <- untruncated_words | exact Hl].
  - intros name Hp.
    assert (str_forallb plain name = true) as Hplain.
    { revert Hp. apply forallb_weaken. intros c Hc.
      apply negb_true_iff, not_filler_parts in Hc as (H1 & H2 & H3).
      unfold plain, harmless. now rewrite H1, H2, H3. }
    rewrite (sanitizeFilename_plain name Hplain).
    split; [reflexivity|].
    intros Hlen. rewrite length_slice0, Hlen. reflexivity.
Qed.

End SanitizeFacts.

(** ** Day grouping and speaker turns *)

Module RenderFacts.
Import Js Platform Markdown ArchiveSpec Examples StringFacts.

Lemma count_app (p : Line -> bool) (a b : list Line) :
  count p (a ++ b) = (count p a + count p b)%nat.
Proof. unfold count. now rewrite List.filter_app, length_app. Qed.

Lemma count_cons (p : Line -> bool) (x : Line) (l : list Line) :
  count p (x :: l) = ((if p x then 1 else 0) + count p l)%nat.
Proof. unfold count. simpl. destruct (p x); reflexivity. Qed.

Lemma count_content (p : Line -> bool) (l : list string) :
  (forall t, p (ContentLine t) = false) ->
  count p (map ContentLine l) = 0%nat.
Proof.
  intros Hp. unfold count.
  induction l as [|x l IH]; simpl; [reflexivity|]. now rewrite Hp.
Qed.

Ltac count_lines :=
  repeat (rewrite count_app || rewrite count_cons
          || (rewrite count_content by reflexivity));
  simpl; try reflexivity; try lia.

Section Rendering.
Variable rt : Runtime.
Hypothesis rt_days : names_every_day rt.

#[local] Abbreviation day_of := (ArchiveSpec.day_of rt).

Lemma day_of_nonempty (m : ExtractedMessage) :
  String.eqb (day_of m) EmptyString = false.
Proof. apply String.eqb_neq, rt_days. Qed.

(** Two messages of one named author on different days. *)
Lemma lines_two_days (m1 m2 : ExtractedMessage) :
  author m1 = author m2 ->
  author m1 <> EmptyString ->
  day_of m1 <> day_of m2 ->
  markdown_lines rt [m1; m2] =
    [DayHeading (formatDate rt (timestamp m1)); Blank;
     AuthorLabel (author m1) (timestamp m1)]
    ++ content_lines m1
    ++ [Blank; Blank; DaySeparator; Blank;
        DayHeading (formatDate rt (timestamp m2)); Blank;
        AuthorLabel (author m1) (timestamp m2)]
    ++ content_lines m2 ++ [Blank].
Proof.
  intros Ha Hne Hd.
  unfold markdown_lines, render_from, content_lines, formatTimestamp.
  fold (day_of m1). fold (day_of m2).
  rewrite (day_of_nonempty m1).
  assert (String.eqb (author m1) EmptyString = false) as E1
    by now apply String.eqb_neq.
  assert (String.eqb (author m2) EmptyString = false) as E2
    by now rewrite <- Ha.
  assert (String.eqb (day_of m2) (day_of m1) = false) as E3
    by (apply String.eqb_neq; congruence).
  simpl. rewrite E1. simpl. rewrite E3. simpl.
  rewrite (day_of_nonempty m1). simpl. rewrite E2. simpl.
  rewrite <- Ha. rewrite <- ?app_assoc. reflexivity.
Qed.

(** Two messages of one named author on one day. *)
Lemma lines_one_day (m1 m2 : ExtractedMessage) :
  author m1 = author m2 ->
  author m1 <> EmptyString ->
  day_of m1 = day_of m2 ->
  markdown_lines rt [m1; m2] =
    [DayHeading (formatDate rt (timestamp m1)); Blank;
     AuthorLabel (author m1) (timestamp m1)]
    ++ content_lines m1
    ++ [Blank; Continuation (timestamp m2)]
    ++ content_lines m2 ++ [Blank].
Proof.
  intros Ha Hne Hd.
  unfold markdown_lines, render_from, content_lines, formatTimestamp.
  fold (day_of m1). fold (day_of m2).
  rewrite (day_of_nonempty m1).
  assert (String.eqb (author m1) EmptyString = false) as E1
    by now apply String.eqb_neq.
  simpl. rewrite E1. simpl. rewrite <- Hd, String.eqb_refl. simpl.
  rewrite <- Ha, String.eqb_refl. simpl.
  rewrite <- ?app_assoc. reflexivity.
Qed.

(** The day grouping and the continuation rule of the specification, for
    an author with a name. *)
Lemma named_author_rendering (m1 m2 : ExtractedMessage) :
  author m1 = author m2 ->
  author m1 <> EmptyString ->
  (day_of m1 <> day_of m2 ->
   count is_DayHeading (markdown_lines rt [m1; m2]) = 2%nat
   /\ count is_DaySeparator (markdown_lines rt [m1; m2]) = 1%nat
   /\ count is_AuthorLabel (markdown_lines rt [m1; m2]) = 2%nat
   /\ count is_Continuation (markdown_lines rt [m1; m2]) = 0%nat)
  /\ (day_of m1 = day_of m2 ->
      count is_DayHeading (markdown_lines rt [m1; m2]) = 1%nat
      /\ count is_DaySeparator (markdown_lines rt [m1; m2]) = 0%nat
      /\ count is_AuthorLabel (markdown_lines rt [m1; m2]) = 1%nat
      /\ count is_Continuation (markdown_lines rt [m1; m2]) = 1%nat).
Proof.
  intros Ha Hne. split; intros Hd.
  - rewrite (lines_two_days m1 m2 Ha Hne Hd). unfold content_lines.
    repeat split; count_lines.
  - rewrite (lines_one_day m1 m2 Ha Hne Hd). unfold content_lines.
    repeat split; count_lines.
Qed.

(** Two messages whose author is the empty string: the first one already
    compares equal to the initial [lastAuthor], so no label is pushed. *)
Lemma lines_unnamed_author (m1 m2 : ExtractedMessage) :
  author m1 = EmptyString ->
  author m2 = EmptyString ->
  day_of m1 <> day_of m2 ->
  markdown_lines rt [m1; m2] =
    [DayHeading (formatDate rt (timestamp m1)); Blank;
     Continuation (timestamp m1)]
    ++ content_lines m1
    ++ [Blank; Blank; DaySeparator; Blank;
        DayHeading (formatDate rt (timestamp m2)); Blank;
        Continuation (timestamp m2)]
    ++ content_lines m2 ++ [Blank].
Proof.
  intros H1 H2 Hd.
  unfold markdown_lines, render_from, content_lines, formatTimestamp.
  fold (day_of m1). fold (day_of m2).
  rewrite (day_of_nonempty m1), H1, H2.
  assert (String.eqb (day_of m2) (day_of m1) = false) as E3
    by (apply String.eqb_neq; congruence).
  simpl. rewrite E3. simpl. rewrite (day_of_nonempty m1). simpl.
  rewrite <- ?app_assoc. reflexivity.
Qed.

End Rendering.

Lemma utc_en_names_every_day : names_every_day utc_en.
Proof.
  intros [t|]; [|discriminate].
  simpl. unfold utc_toDateString.
  destruct (civil_from_days (t / ms_per_day)) as [[y m] dd].
  apply append_cons_nonempty.
Qed.

(** C8. On two messages of the same author with timestamps on consecutive
    days the renderer is to push two day headings, one separator and the
    author label twice. When the author is the empty string it pushes the
    two headings and the separator but no author label at all: both
    messages come out as continuations, on every platform; on the UTC host
    the text is the one given and holds no bold marker. *)
Theorem unnamed_author_gets_no_label :
  (forall rt, names_every_day rt ->
     forall m1 m2,
       author m1 = EmptyString -> author m2 = EmptyString ->
       toDateString rt (Date_of_string rt (timestamp m1))
         <> toDateString rt (Date_of_string rt (timestamp m2)) ->
       count is_DayHeading (markdown_lines rt [m1; m2]) = 2%nat
       /\ count is_DaySeparator (markdown_lines rt [m1; m2]) = 1%nat
       /\ count is_AuthorLabel (markdown_lines rt [m1; m2]) = 0%nat
       /\ count is_Continuation (markdown_lines rt [m1; m2]) = 2%nat)
  /\ messagesToMarkdown utc_en unnamed_batch =
       join nl_s
         ["## Sunday, June 15, 2025"; ""; "*[2025-06-15T10:00:00Z]:*";
          "Hello"; ""; ""; "---"; ""; "## Monday, June 16, 2025"; "";
          "*[2025-06-16T10:00:00Z]:*"; "Hello"; ""]
  /\ count_occ_str "**" (messagesToMarkdown utc_en unnamed_batch) = 0%nat.
Proof.
  split; [|split; vm_compute; reflexivity].
  intros rt Hrt m1 m2 H1 H2 Hd.
  rewrite (lines_unnamed_author rt Hrt m1 m2 H1 H2 Hd).
  unfold content_lines. repeat split; count_lines.
Qed.

(** The two examples of the specification, on the UTC host: the counts of
    the lines pushed, and the same counts read off the text as the
    repository's tests do. *)
Lemma named_author_rendering_witness :
  (count is_DayHeading (markdown_lines utc_en two_day_batch) = 2%nat
   /\ count is_DaySeparator (markdown_lines utc_en two_day_batch) = 1%nat
   /\ count is_AuthorLabel (markdown_lines utc_en two_day_batch) = 2%nat
   /\ count is_Continuation (markdown_lines utc_en two_day_batch) = 0%nat)
  /\ (count is_DayHeading (markdown_lines utc_en one_day_batch) = 1%nat
      /\ count is_DaySeparator (markdown_lines utc_en one_day_batch) = 0%nat
      /\ count is_AuthorLabel (markdown_lines utc_en one_day_batch) = 1%nat
      /\ count is_Continuation (markdown_lines utc_en one_day_batch) = 1%nat)
  /\ count_lines (starts_with "## ") (messagesToMarkdown utc_en two_day_batch)
     = 2%nat
  /\ count_lines (String.eqb "---") (messagesToMarkdown utc_en two_day_batch)
     = 1%nat
  /\ count_occ_str "**Alice**" (messagesToMarkdown utc_en two_day_batch)
     = 2%nat
  /\ count_occ_str "**Alice**" (messagesToMarkdown utc_en one_day_batch)
     = 1%nat
  /\ count_lines (starts_with "*[") (messagesToMarkdown utc_en one_day_batch)
     = 1%nat.
Proof.
  split; [|split; [|repeat split; vm_compute; reflexivity]].
  - apply (named_author_rendering utc_en utc_en_names_every_day
             (message 1 "Alice" "2025-06-15T10:00:00Z" "Hello")
             (message 2 "Alice" "2025-06-16T10:00:00Z" "Hello"));
      [reflexivity | discriminate | vm_compute; discriminate].
  - apply (named_author_rendering utc_en utc_en_names_every_day
             (message 1 "Alice" "2025-06-15T10:30:00Z" "First")
             (message 2 "Alice" "2025-06-15T10:31:00Z" "Second"));
      [reflexivity | discriminate | vm_compute; reflexivity].
Defined.

End RenderFacts.

(** ** The cursor marker in an archive *)

Module MarkerFacts.
Import Js Platform Markdown ArchiveSpec StringFacts.

Lemma strip_prefix_app (p b : string) :
  strip_prefix p (p +:+ b) = Some b.
Proof.
  induction p as [|c p IH]; simpl; [reflexivity|].
  now rewrite eqb_char_refl.
Qed.

Lemma strip_prefix_inv (p s r : string) :
  strip_prefix p s = Some r -> s = p +:+ r.
Proof.
  revert s; induction p as [|c p IH]; intros s; simpl.
  - now intros [= ->].
  - destruct s as [|d s]; [discriminate|].
    destruct (Ascii.eqb c d) eqn:E; [|discriminate].
    apply Ascii.eqb_eq in E as ->. intros H. now rewrite (IH _ H).
Qed.

(** A pattern text without line feed sees nothing beyond a line feed. *)
Lemma strip_prefix_app_nl (p a b : string) :
  one_line p = true ->
  strip_prefix p (a +:+ String nl b)
  = match strip_prefix p a with
    | Some r => Some (r +:+ String nl b)
    | None => None
    end.
Proof.
  revert a; induction p as [|c p IH]; intros a Hp; simpl; [reflexivity|].
  simpl in Hp. apply andb_prop in Hp as [Hc Hp].
  apply negb_true_iff in Hc.
  destruct a as [|d a]; simpl.
  - unfold is_char in Hc. rewrite Ascii.eqb_sym in Hc. now rewrite Hc.
  - destruct (Ascii.eqb c d); [apply IH, Hp | reflexivity].
Qed.

Lemma starts_with_app_nl (p a b : string) :
  one_line p = true ->
  starts_with p (a +:+ String nl b) = starts_with p a.
Proof.
  intros Hp. unfold starts_with. rewrite strip_prefix_app_nl by exact Hp.
  destruct (strip_prefix p a); reflexivity.
Qed.

Lemma match_classes_app_nl (cls : list (ascii -> bool)) (a b : string) :
  forallb (fun p => negb (p nl)) cls = true ->
  match_classes cls (a +:+ String nl b)
  = match match_classes cls a with
    | Some (m, r) => Some (m, r +:+ String nl b)
    | None => None
    end.
Proof.
  revert a; induction cls as [|p cls IH]; intros a Hc; simpl; [reflexivity|].
  simpl in Hc. apply andb_prop in Hc as [Hp Hc]. apply negb_true_iff in Hp.
  destruct a as [|d a]; simpl.
  - now rewrite Hp.
  - destruct (p d); [|reflexivity].
    rewrite (IH a Hc). destruct (match_classes cls a) as [[m r]|]; reflexivity.
Qed.

Lemma span_app_stop (p : ascii -> bool) (a : string) (c : ascii) (b : string) :
  p c = false ->
  span p (a +:+ String c b)
  = (fst (span p a), snd (span p a) +:+ String c b).
Proof.
  intros Hc. induction a as [|d a IH]; simpl.
  - now rewrite Hc.
  - destruct (p d); [|reflexivity].
    rewrite IH. destruct (span p a); reflexivity.
Qed.

Lemma span_all (p : ascii -> bool) (a : string) (c : ascii) (b : string) :
  str_forallb p a = true -> p c = false ->
  span p (a +:+ String c b) = (a, String c b).
Proof.
  intros Ha Hc. induction a as [|d a IH]; simpl.
  - now rewrite Hc.
  - simpl in Ha. apply andb_prop in Ha as [Hd Ha].
    now rewrite Hd, (IH Ha).
Qed.

Lemma span_parts (p : ascii -> bool) (s : string) :
  s = fst (span p s) +:+ snd (span p s).
Proof.
  induction s as [|c s IH]; simpl; [reflexivity|].
  destruct (p c); [|reflexivity].
  destruct (span p s) as [a b]; simpl in *. now rewrite <- IH.
Qed.

Lemma not_space_nl : not_space nl = false.
Proof. reflexivity. Qed.

Lemma date_T_no_nl : forallb (fun p => negb (p nl)) date_T = true.
Proof. reflexivity. Qed.

(** A match does not reach across a line feed. *)
Lemma marker_here_app_nl (a b : string) :
  marker_here (a +:+ String nl b) = marker_here a.
Proof.
  unfold marker_here.
  rewrite strip_prefix_app_nl by reflexivity.
  destruct (strip_prefix marker_open a) as [r|]; [|reflexivity].
  rewrite match_classes_app_nl by exact date_T_no_nl.
  destruct (match_classes date_T r) as [[d r1]|]; [|reflexivity].
  rewrite span_app_stop by exact not_space_nl.
  destruct (span not_space r1) as [run r2]; simpl.
  destruct run; [reflexivity|].
  now rewrite starts_with_app_nl by reflexivity.
Qed.

Lemma marker_here_nl (b : string) : marker_here (String nl b) = None.
Proof. reflexivity. Qed.

(** The leftmost match in two texts a line feed apart. *)
Lemma find_marker_app_nl (a b : string) :
  find_marker (a +:+ String nl b)
  = match find_marker a with
    | Some ts => Some ts
    | None => find_marker b
    end.
Proof.
  induction a as [|c a IH].
  - simpl append. destruct b; reflexivity.
  - change (String c a +:+ String nl b) with (String c (a +:+ String nl b)).
    change (find_marker (String c (a +:+ String nl b)))
      with (match marker_here (String c (a +:+ String nl b)) with
            | Some ts => Some ts
            | None => find_marker (a +:+ String nl b)
            end).
    change (String c (a +:+ String nl b)) with (String c a +:+ String nl b).
    rewrite marker_here_app_nl.
    change (find_marker (String c a))
      with (match marker_here (String c a) with
            | Some ts => Some ts
            | None => find_marker a
            end).
    destruct (marker_here (String c a)); [reflexivity | exact IH].
Qed.

(** A match starts with an angle bracket. *)
Lemma marker_here_other (c : ascii) (s : string) :
  is_char "<" c = false -> marker_here (String c s) = None.
Proof.
  intros Hc.
  assert (strip_prefix marker_open (String c s) = None) as E.
  { unfold marker_open. cbn [strip_prefix].
    unfold is_char in Hc. now rewrite Hc. }
  unfold marker_here. now rewrite E.
Qed.

Lemma find_marker_skip (p s : string) :
  angle_free p = true -> find_marker (p +:+ s) = find_marker s.
Proof.
  induction p as [|c p IH]; intros Hp; [reflexivity|].
  simpl in Hp. apply andb_prop in Hp as [Hc Hp]. apply negb_true_iff in Hc.
  change (find_marker (String c p +:+ s))
    with (match marker_here (String c (p +:+ s)) with
          | Some ts => Some ts
          | None => find_marker (p +:+ s)
          end).
  rewrite (marker_here_other _ _ Hc). exact (IH Hp).
Qed.

Lemma angle_free_marker_free (s : string) :
  angle_free s = true -> marker_free s = true.
Proof.
  intros H. unfold marker_free.
  rewrite <- (append_nil_r s), (find_marker_skip s EmptyString H).
  reflexivity.
Qed.

Lemma marker_free_iff (s : string) :
  marker_free s = true <-> find_marker s = None.
Proof.
  unfold marker_free. destruct (find_marker s); split; congruence.
Qed.

Lemma match_classes_app (cls : list (ascii -> bool)) (s m r x : string) :
  match_classes cls s = Some (m, r) ->
  match_classes cls (s +:+ x) = Some (m, r +:+ x).
Proof.
  revert s m r; induction cls as [|p cls IH]; intros s m r; simpl.
  - now intros [= <- <-].
  - destruct s as [|c s]; [discriminate|]. simpl.
    destruct (p c); [|discriminate].
    destruct (match_classes cls s) as [[m' r']|] eqn:E; [|discriminate].
    intros [= <- <-]. now rewrite (IH _ _ _ E).
Qed.

Lemma match_classes_parts (cls : list (ascii -> bool)) (s m r : string) :
  match_classes cls s = Some (m, r) -> s = m +:+ r.
Proof.
  revert s m r; induction cls as [|p cls IH]; intros s m r; simpl.
  - now intros [= <- <-].
  - destruct s as [|c s]; [discriminate|].
    destruct (p c); [|discriminate].
    destruct (match_classes cls s) as [[m' r']|] eqn:E; [|discriminate].
    intros [= <- <-]. simpl. now rewrite (IH _ _ _ E).
Qed.

Lemma match_classes_forallb (q : ascii -> bool) (cls : list (ascii -> bool))
    (s m r : string) :
  Forall (fun p => forall c, p c = true -> q c = true) cls ->
  match_classes cls s = Some (m, r) -> str_forallb q m = true.
Proof.
  intros Hq; revert s m r; induction Hq as [|p cls Hp _ IH]; intros s m r; simpl.
  - now intros [= <- <-].
  - destruct s as [|c s]; [discriminate|].
    destruct (p c) eqn:Ec; [|discriminate].
    destruct (match_classes cls s) as [[m' r']|] eqn:E; [|discriminate].
    intros [= <- <-]. simpl. now rewrite (Hp c Ec), (IH _ _ _ E).
Qed.

Lemma digit_not_space (c : ascii) : is_digit c = true -> not_space c = true.
Proof.
  destruct c as [[] [] [] [] [] [] [] []]; vm_compute; congruence.
Qed.

Lemma char_not_space (a : ascii) :
  not_space a = true -> forall c, is_char a c = true -> not_space c = true.
Proof. intros Ha c Hc. apply is_char_true in Hc. now subst. Qed.

Lemma date_T_not_space :
  Forall (fun p : ascii -> bool => forall c, p c = true -> not_space c = true)
    date_T.
Proof.
  unfold date_T.
  repeat constructor;
    first [exact digit_not_space | apply char_not_space; reflexivity].
Qed.

(** What [marker_shaped] says of a timestamp. *)
Lemma marker_shaped_inv (ts : string) :
  marker_shaped ts = true ->
  exists d c r, match_classes date_T ts = Some (d, String c r)
    /\ ts = d +:+ String c r
    /\ str_forallb not_space (String c r) = true
    /\ str_forallb not_space ts = true.
Proof.
  unfold marker_shaped.
  destruct (match_classes date_T ts) as [[d [|c r]]|] eqn:E; try discriminate.
  intros Hr. exists d, c, r.
  pose proof (match_classes_parts _ _ _ _ E) as Hts.
  repeat split; auto.
  rewrite Hts, forallb_append, Hr, andb_true_r.
  exact (match_classes_forallb _ _ _ _ _ date_T_not_space E).
Qed.

Lemma not_space_space : not_space " " = false.
Proof. reflexivity. Qed.

(** The marker [saveChat] writes is read back as it was written. *)
Lemma marker_here_metadata (ts rest : string) :
  marker_shaped ts = true ->
  marker_here (metadata_of ts +:+ rest) = Some ts.
Proof.
  intros (d & c & r & Hm & Hts & Hr & _)%marker_shaped_inv.
  unfold marker_here, metadata_of.
  rewrite !append_assoc, strip_prefix_app.
  rewrite (match_classes_app _ _ _ _ _ Hm).
  unfold marker_close.
  change (String c r +:+ " -->" +:+ rest)
    with (String c r +:+ String " " ("-->" +:+ rest)).
  rewrite (span_all _ _ _ _ Hr not_space_space).
  rewrite <- Hts. reflexivity.
Qed.

Lemma find_marker_unfold (s : string) :
  find_marker s
  = match marker_here s with
    | Some ts => Some ts
    | None =>
        match s with
        | EmptyString => None
        | String _ rest => find_marker rest
        end
    end.
Proof. destruct s; reflexivity. Qed.

Lemma find_marker_metadata (ts rest : string) :
  marker_shaped ts = true ->
  find_marker (metadata_of ts +:+ rest) = Some ts.
Proof.
  intros H. now rewrite find_marker_unfold, (marker_here_metadata ts rest H).
Qed.

Lemma find_marker_readback (body ts rest : string) :
  marker_free body = true -> marker_shaped ts = true ->
  find_marker (body +:+ nl_s +:+ metadata_of ts +:+ rest) = Some ts.
Proof.
  intros Hb%marker_free_iff Hts.
  change (body +:+ nl_s +:+ metadata_of ts +:+ rest)
    with (body +:+ String nl (metadata_of ts +:+ rest)).
  rewrite find_marker_app_nl, Hb. now apply find_marker_metadata.
Qed.

(** *** Text added after a match does not undo it *)

Lemma strip_prefix_mono (p s r w : string) :
  strip_prefix p s = Some r -> strip_prefix p (s +:+ w) = Some (r +:+ w).
Proof.
  intros ->%strip_prefix_inv. now rewrite append_assoc, strip_prefix_app.
Qed.

Lemma span_mono (p : ascii -> bool) (s w : string) (c : ascii) (r : string) :
  snd (span p s) = String c r ->
  span p (s +:+ w) = (fst (span p s), snd (span p s) +:+ w).
Proof.
  induction s as [|d s IH]; simpl; [discriminate|].
  destruct (p d) eqn:Ed.
  - destruct (span p s) as [a b] eqn:E. simpl. intros Hb.
    now rewrite (IH Hb).
  - intros _. reflexivity.
Qed.

Lemma marker_here_mono (s w ts : string) :
  marker_here s = Some ts -> marker_here (s +:+ w) = Some ts.
Proof.
  unfold marker_here.
  destruct (strip_prefix marker_open s) as [r|] eqn:E1; [|discriminate].
  rewrite (strip_prefix_mono _ _ _ w E1).
  destruct (match_classes date_T r) as [[d r1]|] eqn:E2; [|discriminate].
  rewrite (match_classes_app _ _ _ _ w E2).
  destruct (span not_space r1) as [run r2] eqn:E3.
  destruct run as [|c run]; [discriminate|].
  unfold starts_with.
  destruct (strip_prefix marker_close r2) as [t|] eqn:E4; [|discriminate].
  intros [= <-].
  pose proof (strip_prefix_inv _ _ _ E4) as Hr2.
  assert (span not_space (r1 +:+ w) = (String c run, r2 +:+ w)) as ->.
  { rewrite (span_mono not_space r1 w " " ("-->" +:+ t)).
    - now rewrite E3.
    - rewrite E3. exact Hr2. }
  now rewrite (strip_prefix_mono _ _ _ w E4).
Qed.

Lemma find_marker_none_prefix (s w : string) :
  find_marker (s +:+ w) = None -> find_marker s = None.
Proof.
  induction s as [|c s IH]; [reflexivity|].
  rewrite (find_marker_unfold (String c s +:+ w)), (find_marker_unfold (String c s)).
  destruct (marker_here (String c s)) as [ts|] eqn:E.
  - now rewrite (marker_here_mono _ w _ E).
  - destruct (marker_here (String c s +:+ w)); [discriminate|].
    exact IH.
Qed.

Lemma trimEnd_parts (s : string) :
  exists w, s = trimEnd s +:+ w.
Proof.
  induction s as [|c s [w IH]]; [now exists EmptyString|].
  simpl. destruct (trimEnd s) as [|d t] eqn:E.
  - destruct (is_space c).
    + exists (String c s). reflexivity.
    + exists w. simpl. simpl in IH. now rewrite <- IH.
  - exists w. simpl. now rewrite IH at 1.
Qed.

Lemma trimEnd_marker_free (s : string) :
  marker_free s = true -> marker_free (trimEnd s) = true.
Proof.
  rewrite !marker_free_iff. destruct (trimEnd_parts s) as [w Hw].
  rewrite Hw at 1. apply find_marker_none_prefix.
Qed.

Lemma trimEnd_app_space (s : string) (c : ascii) :
  is_space c = true -> trimEnd (s +:+ String c EmptyString) = trimEnd s.
Proof.
  intros Hc. induction s as [|d s IH]; simpl.
  - now rewrite Hc.
  - now rewrite IH.
Qed.

(** *** The pattern of the append path *)

Lemma trailing_marker_here_app_nl (a b : string) (c : ascii) :
  trailing_marker_here (a +:+ String nl (String c b)) = false.
Proof.
  unfold trailing_marker_here.
  rewrite strip_prefix_app_nl by reflexivity.
  destruct (strip_prefix marker_open a) as [r|]; [|reflexivity].
  rewrite span_app_stop by exact not_space_nl.
  destruct (span not_space r) as [run r2]; cbn [fst snd].
  destruct run; [reflexivity|].
  rewrite strip_prefix_app_nl by reflexivity.
  destruct (strip_prefix marker_close r2) as [t|]; [|reflexivity].
  apply orb_false_iff; split; apply String.eqb_neq; intros H;
    apply (f_equal String.length) in H; rewrite length_append in H;
    simpl in H; lia.
Qed.

Lemma trailing_marker_here_metadata (ts : string) :
  marker_shaped ts = true ->
  trailing_marker_here (metadata_of ts +:+ nl_s) = true.
Proof.
  intros (d & c & r & Hm & Hts & _ & Hns)%marker_shaped_inv.
  unfold trailing_marker_here, metadata_of.
  rewrite !append_assoc, strip_prefix_app.
  unfold marker_close.
  change (ts +:+ " -->" +:+ nl_s) with (ts +:+ String " " ("-->" +:+ nl_s)).
  rewrite (span_all _ _ _ _ Hns not_space_space).
  rewrite Hts. destruct d; reflexivity.
Qed.

Lemma strip_trailing_marker_unfold (s : string) :
  strip_trailing_marker s
  = if trailing_marker_here s then EmptyString
    else match s with
         | EmptyString => EmptyString
         | String c rest => String c (strip_trailing_marker rest)
         end.
Proof. destruct s; reflexivity. Qed.

Lemma strip_trailing_marker_before (body : string) (c : ascii) (m : string) :
  trailing_marker_here (String c m) = true ->
  strip_trailing_marker (body +:+ String nl (String c m)) = body +:+ nl_s.
Proof.
  intros Hm. induction body as [|x body IH].
  - change (EmptyString +:+ String nl (String c m)) with (String nl (String c m)).
    rewrite strip_trailing_marker_unfold.
    pose proof (trailing_marker_here_app_nl EmptyString m c) as H0.
    change (EmptyString +:+ String nl (String c m))
      with (String nl (String c m)) in H0.
    rewrite H0.
    rewrite (strip_trailing_marker_unfold (String c m)), Hm. reflexivity.
  - rewrite strip_trailing_marker_unfold.
    rewrite trailing_marker_here_app_nl.
    change (String x body +:+ String nl (String c m))
      with (String x (body +:+ String nl (String c m))).
    cbv iota beta. rewrite IH. reflexivity.
Qed.

(** The append path removes the marker that ends the file, and only it. *)
Lemma strip_trailing_marker_last (body ts : string) :
  marker_shaped ts = true ->
  strip_trailing_marker (body +:+ nl_s +:+ metadata_of ts +:+ nl_s)
  = body +:+ nl_s.
Proof.
  intros Hts.
  pose proof (trailing_marker_here_metadata ts Hts) as Ht.
  change (body +:+ nl_s +:+ metadata_of ts +:+ nl_s)
    with (body +:+ String nl ((marker_open +:+ ts +:+ marker_close) +:+ nl_s)).
  change (metadata_of ts +:+ nl_s)
    with ((marker_open +:+ ts +:+ marker_close) +:+ nl_s) in Ht.
  rewrite append_assoc in Ht |- *.
  change (marker_open +:+ (ts +:+ marker_close) +:+ nl_s)
    with (String "<" ("!-- last-message: " +:+ (ts +:+ marker_close) +:+ nl_s))
    in Ht |- *.
  now apply strip_trailing_marker_before.
Qed.

(** *** Archives that end in their only marker *)

Lemma well_formed_cursor (content ts : string) :
  well_formed content ts -> find_marker content = Some ts.
Proof.
  intros (body & -> & Hb & Hts). now apply find_marker_readback.
Qed.

Lemma marker_free_app_nl (a b : string) :
  marker_free a = true -> marker_free b = true ->
  marker_free (a +:+ nl_s +:+ b) = true.
Proof.
  rewrite !marker_free_iff. intros Ha Hb.
  change (a +:+ nl_s +:+ b) with (a +:+ String nl b).
  now rewrite find_marker_app_nl, Ha.
Qed.

Lemma marker_free_skip (p s : string) :
  angle_free p = true -> marker_free s = true -> marker_free (p +:+ s) = true.
Proof.
  rewrite !marker_free_iff. intros Hp Hs. now rewrite find_marker_skip.
Qed.

Lemma marker_free_empty : marker_free EmptyString = true.
Proof. reflexivity. Qed.

Lemma well_formed_fresh (chatName now markdown ts : string) :
  marker_free chatName = true ->
  marker_free now = true ->
  marker_free markdown = true ->
  marker_shaped ts = true ->
  well_formed (fresh_export chatName now markdown (metadata_of ts)) ts.
Proof.
  intros Hc Hn Hm Hts.
  exists ("# " +:+ chatName +:+ nl_s +:+ nl_s +:+ "Exported: " +:+ now
          +:+ nl_s +:+ nl_s +:+ markdown).
  split; [|split; [|exact Hts]].
  - unfold fresh_export. now rewrite !append_assoc.
  - apply marker_free_skip; [reflexivity|].
    apply marker_free_app_nl; [exact Hc|].
    apply (marker_free_app_nl EmptyString); [reflexivity|].
    apply marker_free_skip; [reflexivity|].
    apply marker_free_app_nl; [exact Hn|].
    apply (marker_free_app_nl EmptyString); [reflexivity | exact Hm].
Qed.

Lemma well_formed_append (existing ts0 now markdown ts : string) :
  well_formed existing ts0 ->
  marker_free now = true ->
  marker_free markdown = true ->
  marker_shaped ts = true ->
  well_formed (appended_export existing now markdown (metadata_of ts)) ts.
Proof.
  intros (body & -> & Hb & Hts0) Hn Hm Hts.
  exists (trimEnd body +:+ nl_s +:+ nl_s +:+ "---" +:+ nl_s +:+ nl_s
          +:+ "### Export appended: " +:+ now +:+ nl_s +:+ nl_s +:+ markdown).
  split; [|split; [|exact Hts]].
  - unfold appended_export.
    rewrite (strip_trailing_marker_last body ts0 Hts0).
    unfold nl_s. rewrite (trimEnd_app_space body nl eq_refl).
    now rewrite !append_assoc.
  - apply marker_free_app_nl; [now apply trimEnd_marker_free|].
    apply (marker_free_app_nl EmptyString); [reflexivity|].
    apply (marker_free_app_nl "---"); [reflexivity|].
    apply (marker_free_app_nl EmptyString); [reflexivity|].
    apply marker_free_skip; [reflexivity|].
    apply marker_free_app_nl; [exact Hn|].
    apply (marker_free_app_nl EmptyString); [reflexivity | exact Hm].
Qed.

End MarkerFacts.

(** ** Rendered messages and the marker *)

Module QuietFacts.
Import Js Platform Markdown ArchiveSpec StringFacts MarkerFacts.

Lemma split_lines_nonempty (s : string) : split_lines s <> [].
Proof.
  induction s as [|c s IH]; simpl; [discriminate|].
  destruct (Ascii.eqb c nl); [discriminate|].
  destruct (split_lines s); [contradiction | discriminate].
Qed.

Lemma join_cons (sep x : string) (y : string) (l : list string) :
  join sep (x :: y :: l) = x +:+ sep +:+ join sep (y :: l).
Proof. reflexivity. Qed.

Lemma join_split_lines (s : string) : join nl_s (split_lines s) = s.
Proof.
  induction s as [|c s IH]; [reflexivity|].
  simpl split_lines. pose proof (split_lines_nonempty s) as Hne.
  destruct (Ascii.eqb c nl) eqn:E.
  - apply Ascii.eqb_eq in E as ->.
    destruct (split_lines s) as [|l ls]; [contradiction|].
    rewrite join_cons, IH. reflexivity.
  - destruct (split_lines s) as [|l ls]; [contradiction|].
    destruct ls as [|l2 ls].
    + simpl in *. now rewrite IH.
    + rewrite join_cons. rewrite join_cons in IH.
      change (String c l +:+ nl_s +:+ join nl_s (l2 :: ls))
        with (String c (l +:+ nl_s +:+ join nl_s (l2 :: ls))).
      now rewrite IH.
Qed.

Lemma marker_free_parts (a b : string) :
  marker_free (a +:+ nl_s +:+ b) = true ->
  marker_free a = true /\ marker_free b = true.
Proof.
  rewrite !marker_free_iff.
  change (a +:+ nl_s +:+ b) with (a +:+ String nl b).
  rewrite find_marker_app_nl. destruct (find_marker a); [discriminate | auto].
Qed.

Lemma marker_free_join (ls : list string) :
  Forall (fun l => marker_free l = true) ls ->
  marker_free (join nl_s ls) = true.
Proof.
  induction 1 as [|x l Hx Hl IH]; [reflexivity|].
  destruct l as [|y l]; [exact Hx|].
  rewrite join_cons. now apply marker_free_app_nl.
Qed.

Lemma marker_free_lines (ls : list string) :
  marker_free (join nl_s ls) = true ->
  Forall (fun l => marker_free l = true) ls.
Proof.
  induction ls as [|x l IH]; [constructor|].
  destruct l as [|y l].
  - intros H. constructor; [exact H | constructor].
  - rewrite join_cons. intros [Hx Hl]%marker_free_parts.
    constructor; [exact Hx | exact (IH Hl)].
Qed.

Lemma angle_free_app (a b : string) :
  angle_free (a +:+ b) = angle_free a && angle_free b.
Proof. apply forallb_append. Qed.

Section Quiet.
Variable rt : Runtime.

#[local] Abbreviation message_quiet := (ArchiveSpec.message_quiet rt).

Lemma message_quiet_inv (m : ExtractedMessage) :
  message_quiet m = true ->
  marker_shaped (timestamp m) = true
  /\ line_quiet (DayHeading (formatDate rt (timestamp m)))
  /\ line_quiet (AuthorLabel (author m) (formatTimestamp (timestamp m)))
  /\ line_quiet (Continuation (formatTimestamp (timestamp m)))
  /\ marker_free (htmlToText (contentHtml m)) = true.
Proof.
  unfold message_quiet, line_quiet.
  intros [[[[H1 H2]%andb_prop H3]%andb_prop H4]%andb_prop H5]%andb_prop.
  auto.
Qed.

Lemma render_from_quiet (lastAuthor lastDateStr : string)
    (l : list ExtractedMessage) :
  forallb message_quiet l = true ->
  Forall line_quiet (render_from rt lastAuthor lastDateStr l).
Proof.
  revert lastAuthor lastDateStr.
  induction l as [|m l IH]; intros la ld Hq; [constructor|].
  simpl in Hq. apply andb_prop in Hq as [Hm Hl].
  apply message_quiet_inv in Hm as (_ & Hh & Hlab & Hcont & Hc).
  assert (line_quiet Blank) as Hb by reflexivity.
  assert (line_quiet DaySeparator) as Hs by reflexivity.
  cbn [render_from].
  repeat apply Forall_app_2.
  - destruct (negb _); [|constructor].
    destruct (negb _); repeat constructor; assumption.
  - destruct (negb _); repeat constructor; assumption.
  - apply List.Forall_map.
    rewrite <- (join_split_lines (htmlToText (contentHtml m))) in Hc.
    exact (marker_free_lines _ Hc).
  - repeat constructor; assumption.
  - apply IH, Hl.
Qed.

(** Quiet messages render to a text without marker. *)
Lemma messagesToMarkdown_quiet (l : list ExtractedMessage) :
  forallb message_quiet l = true ->
  marker_free (messagesToMarkdown rt l) = true.
Proof.
  intros Hq. unfold messagesToMarkdown.
  destruct l as [|m l]; [reflexivity|].
  apply marker_free_join. apply List.Forall_map.
  exact (render_from_quiet _ _ _ Hq).
Qed.

End Quiet.

End QuietFacts.

(** ** Merging a batch into an archive *)

Module SaveFacts.
Import Js Platform Markdown ArchiveSpec Examples StringFacts MarkerFacts QuietFacts.

Lemma last_filter {A : Type} (f : A -> bool) (l : list A) (x d : A) :
  last l = Some x -> f x = true -> List.last (List.filter f l) d = x.
Proof.
  intros [l' ->]%last_Some Hx.
  rewrite List.filter_app. simpl. rewrite Hx. apply List.last_last.
Qed.

Lemma last_List_last {A : Type} (l : list A) (x d : A) :
  last l = Some x -> List.last l d = x.
Proof. intros [l' ->]%last_Some. apply List.last_last. Qed.

Lemma List_last_In {A : Type} (l : list A) (first : A) :
  In (List.last (first :: l) first) (first :: l).
Proof.
  assert (forall d, In (List.last (first :: l) d) (first :: l)) as H.
  { revert first; induction l as [|y l IH]; intros f d; [now left|].
    right. change (List.last (f :: y :: l) d) with (List.last (y :: l) d).
    apply IH. }
  apply H.
Qed.

Lemma filter_nil_forallb {A : Type} (f : A -> bool) (l : list A) :
  forallb (fun x => negb (f x)) l = true -> List.filter f l = [].
Proof.
  induction l as [|x l IH]; simpl; [reflexivity|].
  intros [Hx Hl]%andb_prop. apply negb_true_iff in Hx. rewrite Hx. auto.
Qed.

Lemma forallb_filter {A : Type} (p f : A -> bool) (l : list A) :
  forallb p l = true -> forallb p (List.filter f l) = true.
Proof.
  induction l as [|x l IH]; simpl; [reflexivity|].
  intros [Hx Hl]%andb_prop. destruct (f x); simpl; [rewrite Hx|]; auto.
Qed.

Section Save.
Variable rt : Runtime.

#[local] Abbreviation date_of := (ArchiveSpec.date_of rt).
#[local] Abbreviation written_content := (ArchiveSpec.written_content rt).
#[local] Abbreviation latest_last := (ArchiveSpec.latest_last rt).
#[local] Abbreviation batch_settled := (ArchiveSpec.batch_settled rt).
#[local] Abbreviation merge_step := (ArchiveSpec.merge_step rt).
#[local] Abbreviation merge_all := (ArchiveSpec.merge_all rt).
#[local] Abbreviation call_settled := (ArchiveSpec.call_settled rt).
#[local] Abbreviation cursor_is_latest := (ArchiveSpec.cursor_is_latest rt).
#[local] Abbreviation merge_inv := (ArchiveSpec.merge_inv rt).

Lemma saveChat_nothing_new (chatName outputDir now : string)
    (messages : list ExtractedMessage) (fs : gmap string string) :
  newer_than rt
    (getLatestTimestamp rt fs (archive_path rt chatName outputDir)) messages
    = [] ->
  saveChat rt chatName messages outputDir now fs = (0%nat, fs).
Proof. unfold saveChat. now intros ->. Qed.

Lemma saveChat_written (chatName outputDir now : string)
    (messages : list ExtractedMessage) (fs : gmap string string)
    (first : ExtractedMessage) (others : list ExtractedMessage) :
  let path := archive_path rt chatName outputDir in
  let kept := newer_than rt (getLatestTimestamp rt fs path) messages in
  kept = first :: others ->
  saveChat rt chatName messages outputDir now fs =
    (length kept,
     <[path := written_content chatName now fs path kept
                 (List.last kept first)]> fs).
Proof.
  intros path kept Hk. unfold saveChat, written_content.
  fold path. fold kept. rewrite Hk. reflexivity.
Qed.

Lemma cursor_of_content (fs : gmap string string) (path content : string) :
  fs !! path = Some content ->
  getLatestTimestamp rt fs path
  = match find_marker content with
    | Some ts => Some (Date_of_string rt ts)
    | None => None
    end.
Proof. unfold getLatestTimestamp. now intros ->. Qed.

Lemma cursor_of_absent (fs : gmap string string) (path : string) :
  fs !! path = None -> getLatestTimestamp rt fs path = None.
Proof. unfold getLatestTimestamp. now intros ->. Qed.

(** C10. An archive that is on disk but holds no cursor marker is
    written afresh by [saveChat] with a non-empty batch: every message of
    the batch is written, and the file becomes the fresh export (title,
    export time, rendered batch, marker of the last message), whatever it
    held before. *)
Theorem saveChat_without_marker_starts_afresh
    (chatName outputDir now existing : string)
    (messages : list ExtractedMessage) (lastMsg : ExtractedMessage)
    (fs : gmap string string) :
  fs !! archive_path rt chatName outputDir = Some existing ->
  find_marker existing = None ->
  last messages = Some lastMsg ->
  saveChat rt chatName messages outputDir now fs
  = (length messages,
     <[archive_path rt chatName outputDir :=
         fresh_export chatName now (messagesToMarkdown rt messages)
           (metadata_of (timestamp lastMsg))]> fs).
Proof.
  intros Hfile Hnone Hlast.
  pose proof (cursor_of_content _ _ _ Hfile) as Hcur. rewrite Hnone in Hcur.
  destruct messages as [|first others]; [discriminate|].
  rewrite (saveChat_written chatName outputDir now (first :: others) fs
             first others) by now rewrite Hcur.
  unfold written_content. rewrite Hfile, Hcur. simpl newer_than.
  now rewrite (last_List_last _ _ first Hlast).
Qed.

(** *** Settled archives and batches *)

Lemma newer_than_quiet (cursor : option JsDate) (B : list ExtractedMessage) :
  forallb (message_quiet rt) B = true ->
  forallb (message_quiet rt) (newer_than rt cursor B) = true.
Proof.
  destruct cursor; simpl; [apply forallb_filter | auto].
Qed.

Lemma newer_than_In (cursor : option JsDate) (B : list ExtractedMessage)
    (m : ExtractedMessage) :
  In m (newer_than rt cursor B) ->
  In m B /\ forall c, cursor = Some c -> date_gt (date_of m) c = true.
Proof.
  destruct cursor as [c|]; simpl.
  - intros [Hin Hf]%List.filter_In. split; [exact Hin|]. now intros ? [= <-].
  - intros Hin. split; [exact Hin | discriminate].
Qed.

(** A merge that writes, into a settled archive from quiet messages: the
    file ends in its only marker, the one of the last message written. *)
Lemma saveChat_ends_in_marker (chatName outputDir now : string)
    (B : list ExtractedMessage) (fs : gmap string string)
    (first : ExtractedMessage) (others : list ExtractedMessage) :
  let path := archive_path rt chatName outputDir in
  let kept := newer_than rt (getLatestTimestamp rt fs path) B in
  archive_settled fs path ->
  forallb (message_quiet rt) B = true ->
  marker_free chatName = true ->
  marker_free now = true ->
  kept = first :: others ->
  well_formed
    (written_content chatName now fs path kept (List.last kept first))
    (timestamp (List.last kept first)).
Proof.
  intros path kept Harch Hquiet Hname Hnow Hkept.
  assert (forallb (message_quiet rt) kept = true) as Hkq
    by apply newer_than_quiet, Hquiet.
  assert (marker_shaped (timestamp (List.last kept first)) = true) as Hshape.
  { rewrite forallb_forall in Hkq.
    assert (In (List.last kept first) kept) as Hin
      by (rewrite Hkept; apply List_last_In).
    now destruct (message_quiet_inv rt _ (Hkq _ Hin)) as (H & _). }
  assert (marker_free (messagesToMarkdown rt kept) = true) as Hmd
    by apply messagesToMarkdown_quiet, Hkq.
  unfold written_content.
  destruct (fs !! path) as [existing|] eqn:Hfile;
    [|now apply well_formed_fresh].
  rewrite (cursor_of_content _ _ _ Hfile).
  destruct (Harch existing Hfile) as [Hnone | [ts0 Hwf]].
  - rewrite Hnone. now apply well_formed_fresh.
  - rewrite (well_formed_cursor _ _ Hwf).
    now apply well_formed_append with (ts0 := ts0).
Qed.

(** When the batch ends in its latest message besides, the last message
    written is the last of the batch. *)
Lemma saveChat_settles (chatName outputDir now : string)
    (B : list ExtractedMessage) (fs : gmap string string)
    (first : ExtractedMessage) (others : list ExtractedMessage) :
  let path := archive_path rt chatName outputDir in
  let kept := newer_than rt (getLatestTimestamp rt fs path) B in
  archive_settled fs path ->
  batch_settled B ->
  marker_free chatName = true ->
  marker_free now = true ->
  kept = first :: others ->
  exists l t,
    last B = Some l /\ date_of l = Some t
    /\ forallb (fun m => negb (date_gt (date_of m) (Some t))) B = true
    /\ List.last kept first = l
    /\ well_formed
         (written_content chatName now fs path kept (List.last kept first))
         (timestamp l).
Proof.
  intros path kept Harch [Hquiet Hlatest] Hname Hnow Hkept.
  pose proof (saveChat_ends_in_marker chatName outputDir now B fs first others
                Harch Hquiet Hname Hnow Hkept) as Hwf.
  fold path in Hwf. fold kept in Hwf.
  assert (In first kept) as Hfirst by (rewrite Hkept; now left).
  apply newer_than_In in Hfirst as [HfirstB Hnewer].
  unfold latest_last in Hlatest.
  destruct (last B) as [l|] eqn:Hl;
    [|apply last_None in Hl; subst B; destruct HfirstB].
  destruct (date_of l) as [t|] eqn:Ht; [|discriminate].
  assert (List.last kept first = l) as Hlast.
  { unfold kept. destruct (getLatestTimestamp rt fs path) as [c|] eqn:Hc.
    - apply last_filter; [exact Hl|]. fold (date_of l). rewrite Ht.
      specialize (Hnewer c eq_refl).
      rewrite forallb_forall in Hlatest.
      specialize (Hlatest first HfirstB). apply negb_true_iff in Hlatest.
      destruct (date_of first) as [tf|]; [|discriminate].
      destruct c as [tc|]; [|discriminate].
      simpl in *. lia.
    - now apply last_List_last. }
  exists l, t. repeat split; auto. now rewrite Hlast in Hwf |- *.
Qed.

Lemma written_content_ends (chatName now : string) (fs : gmap string string)
    (filePath : string) (kept : list ExtractedMessage)
    (lastMsg : ExtractedMessage) :
  exists before,
    written_content chatName now fs filePath kept lastMsg
    = before +:+ nl_s +:+ metadata_of (timestamp lastMsg) +:+ nl_s.
Proof.
  unfold written_content, appended_export, fresh_export.
  set (md := messagesToMarkdown rt kept).
  destruct (fs !! filePath) as [existing|];
    [destruct (getLatestTimestamp rt fs filePath)|].
  - exists (trimEnd (strip_trailing_marker existing) +:+ nl_s +:+ nl_s
            +:+ "---" +:+ nl_s +:+ nl_s +:+ "### Export appended: " +:+ now
            +:+ nl_s +:+ nl_s +:+ md).
    now rewrite !append_assoc.
  - exists (("# " +:+ chatName +:+ nl_s +:+ nl_s +:+ "Exported: " +:+ now
             +:+ nl_s +:+ nl_s) +:+ md).
    now rewrite !append_assoc.
  - exists (("# " +:+ chatName +:+ nl_s +:+ nl_s +:+ "Exported: " +:+ now
             +:+ nl_s +:+ nl_s) +:+ md).
    now rewrite !append_assoc.
Qed.

Lemma date_gt_spec (a b : JsDate) :
  date_gt a b = true <-> exists x y, a = Some x /\ b = Some y /\ y < x.
Proof.
  destruct a as [x|], b as [y|]; simpl; split;
    try discriminate; try (intros (? & ? & ? & ? & ?); discriminate).
  - intros H%Z.ltb_lt. eauto.
  - intros (? & ? & [= <-] & [= <-] & H). now apply Z.ltb_lt.
Qed.


(** *** Runs of merges *)

Lemma merge_inv_settled (path : string)
    (st : gmap string string * list ExtractedMessage) :
  merge_inv path st -> archive_settled (fst st) path.
Proof.
  intros [[_ Hu] | (content & l & t & Hf & Hwf & _)] c Hc.
  - left. exact (Hu c Hc).
  - right. exists (timestamp l). congruence.
Qed.

Lemma merge_step_inv (chatName outputDir : string)
    (st : gmap string string * list ExtractedMessage)
    (call : list ExtractedMessage * string) :
  marker_free chatName = true ->
  call_settled call ->
  merge_inv (archive_path rt chatName outputDir) st ->
  merge_inv (archive_path rt chatName outputDir)
    (merge_step chatName outputDir st call).
Proof.
  destruct st as [fs log], call as [B now]. intros Hname [Hbatch Hnow] Hinv.
  pose proof (merge_inv_settled _ _ Hinv) as Hsettled.
  unfold merge_step. cbn [fst snd] in *.
  set (path := archive_path rt chatName outputDir) in *.
  destruct (newer_than rt (getLatestTimestamp rt fs path) B)
    as [|first others] eqn:Hk.
  - rewrite (saveChat_nothing_new chatName outputDir now B fs Hk).
    now rewrite app_nil_r.
  - destruct (saveChat_settles chatName outputDir now B fs first others
                Hsettled Hbatch Hname Hnow Hk)
      as (l & t & Hl & Ht & Hall & Hlast & Hwf).
    rewrite (saveChat_written _ _ _ _ _ first others Hk).
    fold path in Hwf, Hlast |- *. rewrite Hk in Hwf, Hlast |- *.
    right. unfold cursor_is_latest. cbn [snd fst].
    eexists _, l, t.
    assert (In l (first :: others)) as Hin
      by (rewrite <- Hlast; apply List_last_In).
    split; [apply lookup_insert_eq|].
    split; [exact Hwf|].
    split; [apply in_app_iff; now right|].
    split; [exact Ht|].
    split.
    { rewrite (cursor_of_content _ path _ (lookup_insert_eq _ _ _)).
      rewrite (well_formed_cursor _ _ Hwf). fold (date_of l). now rewrite Ht. }
    intros m [Hm | Hm]%in_app_iff.
    + destruct Hinv as [[Hnil _] | (c0 & l0 & t0 & _ & _ & _ & _ & Hcur & Hle)];
        [cbn [snd] in Hnil; subst log; destruct Hm|].
      cbn [fst snd] in *.
      assert (t0 < t) as Hlt.
      { rewrite <- Hk in Hin. apply newer_than_In in Hin as [_ Hgt].
        specialize (Hgt _ Hcur). rewrite Ht in Hgt. simpl in Hgt. lia. }
      specialize (Hle m Hm). destruct (date_of m) as [tm|]; [|reflexivity].
      simpl in *. lia.
    + rewrite forallb_forall in Hall.
      rewrite <- Hk in Hm. apply newer_than_In in Hm as [HmB _].
      apply negb_true_iff. exact (Hall m HmB).
Qed.

Lemma merge_run_inv (chatName outputDir : string)
    (calls : list (list ExtractedMessage * string))
    (st : gmap string string * list ExtractedMessage) :
  marker_free chatName = true ->
  Forall call_settled calls ->
  merge_inv (archive_path rt chatName outputDir) st ->
  merge_inv (archive_path rt chatName outputDir)
    (fold_left (merge_step chatName outputDir) calls st).
Proof.
  intros Hname Hcalls. revert st.
  induction Hcalls as [|call calls Hcall _ IH]; intros st Hinv; [exact Hinv|].
  simpl. apply IH. now apply merge_step_inv.
Qed.


End Save.

(** *** Worked merges on the UTC host *)

Lemma saveChat_without_marker_witness :
  unmarked_files !! archive_path utc_en "Chat" "out"
    = Some ("# Chat" +:+ nl_s +:+ "Hello world" +:+ nl_s)
  /\ saveChat utc_en "Chat" first_batch "out" sample_now unmarked_files
     = (1%nat,
        <[ "out/Chat.md" :=
             fresh_export "Chat" sample_now
               (messagesToMarkdown utc_en first_batch)
               (metadata_of "2025-06-15T10:00:00.000Z") ]> unmarked_files).
Proof.
  split; [reflexivity|].
  apply (saveChat_without_marker_starts_afresh utc_en "Chat" "out" sample_now
           ("# Chat" +:+ nl_s +:+ "Hello world" +:+ nl_s) first_batch
           (message 1 "Alice" "2025-06-15T10:00:00.000Z" "First"));
    reflexivity.
Defined.



Lemma empty_settled (path : string) : archive_settled ∅ path.
Proof. intros c Hc. now rewrite lookup_empty in Hc. Qed.

Lemma empty_unmarked (path : string) : unmarked ∅ path.
Proof. intros c Hc. now rewrite lookup_empty in Hc. Qed.



End SaveFacts.

(** ** Deduplication and sequencing *)

Module SequenceFacts.
Import Js Platform Markdown Extract ExtractSpec.

Lemma has_In (m : list (Z * Node)) (key : Z) :
  has m key = true <-> In key (map fst m).
Proof.
  unfold has. rewrite existsb_exists, in_map_iff. split.
  - intros (e & He & Hk%Z.eqb_eq). eauto.
  - intros (e & Hk & He). exists e. split; [exact He | now apply Z.eqb_eq].
Qed.

Lemma eligible_inv (key : Z) (n : Node) :
  eligible key n = true <-> body_id n = Some key /\ animated_gif n = false.
Proof.
  unfold eligible. destruct (body_id n) as [k|]; [|split; [discriminate | now intros [? _]]].
  rewrite andb_true_iff, negb_true_iff, Z.eqb_eq.
  split; [intros [-> H]; auto | intros [[= ->] H]; auto].
Qed.

Lemma find_app {A : Type} (f : A -> bool) (l1 l2 : list A) :
  List.find f (l1 ++ l2)
  = match List.find f l1 with
    | Some x => Some x
    | None => List.find f l2
    end.
Proof.
  induction l1 as [|x l1 IH]; simpl; [reflexivity|].
  destruct (f x); [reflexivity | exact IH].
Qed.

Lemma indexes_nil : indexes [] [].
Proof. split; [constructor | intros key n; split; [intros [] | discriminate]]. Qed.

Lemma index_node_step (m : list (Z * Node)) (done : list Node) (x : Node) :
  indexes m done -> indexes (index_node m x) (done ++ [x]).
Proof.
  intros [Hnd Hm]. unfold index_node.
  assert (forall key, eligible key x = false ->
            List.find (eligible key) (done ++ [x]) = List.find (eligible key) done)
    as Hsame.
  { intros key Hk. rewrite find_app. simpl. rewrite Hk.
    destruct (List.find (eligible key) done); reflexivity. }
  destruct (body_id x) as [k|] eqn:Hid.
  2:{ split; [exact Hnd|]. intros key n. rewrite Hsame; [apply Hm|].
      unfold eligible. now rewrite Hid. }
  destruct (animated_gif x) eqn:Hgif; simpl.
  { split; [exact Hnd|]. intros key n. rewrite Hsame; [apply Hm|].
    unfold eligible. now rewrite Hid, Hgif, andb_false_r. }
  assert (forall key, eligible key x = (k =? key)) as Hel.
  { intros key. unfold eligible. now rewrite Hid, Hgif, andb_true_r. }
  destruct (has m k) eqn:Hhas.
  - split; [exact Hnd|]. intros key n.
    rewrite Hm, find_app. simpl. rewrite Hel.
    destruct (List.find (eligible key) done) as [n'|] eqn:Hf; [reflexivity|].
    destruct (Z.eqb_spec k key) as [->|Hne]; [|reflexivity].
    apply has_In, in_map_iff in Hhas as ([k' n'] & Hk' & Hin).
    simpl in Hk'. subst k'. apply Hm in Hin. congruence.
  - assert (~ In k (map fst m)) as Hnot.
    { intros H. apply has_In in H. congruence. }
    split.
    + rewrite map_app. simpl. apply List.NoDup_app; auto.
      * repeat constructor. intros [].
      * intros y Hy [<- | []]. contradiction.
    + intros key n. rewrite in_app_iff, Hm, find_app. simpl. rewrite Hel.
      destruct (List.find (eligible key) done) as [n'|] eqn:Hf.
      * split; [intros [H | [[= <- <-] | []]]; [exact H|] | now left].
        exfalso. apply Hnot. apply in_map_iff.
        exists (k, n'). split; [reflexivity | now apply Hm].
      * destruct (Z.eqb_spec k key) as [->|Hne].
        -- split; [intros [H | [[= ->] | []]]; congruence|].
           intros [= ->]. right. now left.
        -- split; [intros [H | [[= -> ->] | []]]; congruence | discriminate].
Qed.

Lemma index_nodes_fold (rest done : list Node) (m : list (Z * Node)) :
  indexes m done -> indexes (fold_left index_node rest m) (done ++ rest).
Proof.
  revert done m; induction rest as [|x rest IH]; intros done m H.
  - now rewrite app_nil_r.
  - simpl. replace (done ++ x :: rest) with ((done ++ [x]) ++ rest)
      by now rewrite <- app_assoc.
    apply IH. now apply index_node_step.
Qed.

Lemma index_nodes_indexes (collected : list Node) :
  indexes (index_nodes collected) collected.
Proof. exact (index_nodes_fold collected [] [] indexes_nil). Qed.

(** *** The sort *)

Lemma insert_entry_perm (e : Z * Node) (l : list (Z * Node)) :
  Permutation (insert_entry e l) (e :: l).
Proof.
  induction l as [|x l IH]; simpl; [reflexivity|].
  destruct (fst e <=? fst x); [reflexivity|].
  rewrite IH. apply perm_swap.
Qed.

Lemma insert_entry_sorted (e : Z * Node) (l : list (Z * Node)) :
  StronglySorted key_le l -> StronglySorted key_le (insert_entry e l).
Proof.
  induction 1 as [|x l Hs IH Hall]; simpl; [repeat constructor|].
  destruct (Z.leb_spec (fst e) (fst x)) as [Hle|Hgt].
  - constructor; [now constructor|].
    constructor; [exact Hle|].
    eapply List.Forall_impl; [|exact Hall]. unfold key_le. intros; simpl in *; lia.
  - constructor; [exact IH|].
    rewrite (insert_entry_perm e l). constructor; [unfold key_le; lia | exact Hall].
Qed.

Lemma sort_entries_perm (l : list (Z * Node)) : Permutation (sort_entries l) l.
Proof.
  induction l as [|e l IH]; simpl; [reflexivity|].
  now rewrite insert_entry_perm, IH.
Qed.

Lemma sort_entries_sorted (l : list (Z * Node)) :
  StronglySorted key_le (sort_entries l).
Proof.
  induction l as [|e l IH]; simpl; [constructor | now apply insert_entry_sorted].
Qed.

Lemma strictly_ascending (l : list (Z * Node)) :
  StronglySorted key_le l -> List.NoDup (map fst l) ->
  StronglySorted Z.lt (map fst l).
Proof.
  induction 1 as [|x l Hs IH Hall]; simpl; [constructor|].
  intros [Hx Hnd]%List.NoDup_cons_iff. constructor; [exact (IH Hnd)|].
  rewrite List.Forall_forall in Hall. apply List.Forall_forall.
  intros k (e & <- & He)%in_map_iff.
  assert (fst x <> fst e) by (intros E; apply Hx; rewrite E; now apply in_map).
  specialize (Hall e He). unfold key_le in Hall. lia.
Qed.

(** C3. The sequencing step of both scripts: the ids of its result are
    strictly ascending, so each stands once and the result is sorted by
    id; an id is in the result when, and only when, some collected node
    that is not an animated-image placeholder carries it; the node given
    for an id is the first such node in collection order; and no node of
    the result is an animated-image placeholder. *)
Theorem sequence_spec (collected : list Node) :
  StronglySorted Z.lt (map fst (sequence_entries collected))
  /\ List.NoDup (map fst (sequence_entries collected))
  /\ (forall key,
        In key (map fst (sequence_entries collected)) <->
        exists n, In n collected /\ body_id n = Some key
                  /\ animated_gif n = false)
  /\ (forall key n,
        In (key, n) (sequence_entries collected) <->
        List.find (eligible key) collected = Some n)
  /\ (forall n, In n (sequence collected) ->
        animated_gif n = false /\ exists key, body_id n = Some key)
  /\ sequence collected = map snd (sequence_entries collected).
Proof.
  destruct (index_nodes_indexes collected) as [Hnd Hfind].
  pose proof (sort_entries_perm (index_nodes collected)) as Hperm.
  assert (List.NoDup (map fst (sequence_entries collected))) as Hnd'.
  { unfold sequence_entries.
    apply (Permutation_NoDup (l := map fst (index_nodes collected)));
      [apply Permutation_map; now symmetry | exact Hnd]. }
  assert (forall key n,
            In (key, n) (sequence_entries collected) <->
            List.find (eligible key) collected = Some n) as Hfind'.
  { intros key n. unfold sequence_entries. rewrite <- Hfind.
    split; apply Permutation_in; [exact Hperm | now symmetry]. }
  split; [apply strictly_ascending; [apply sort_entries_sorted | exact Hnd']|].
  split; [exact Hnd'|].
  split; [|split; [exact Hfind'|split; [|reflexivity]]].
  - intros key. rewrite in_map_iff. split.
    + intros ([k n] & Hk & Hin). simpl in Hk. subst k.
      apply Hfind', find_some in Hin as [Hin Hel].
      apply eligible_inv in Hel. eauto.
    + intros (n & Hin & Hid & Hgif).
      destruct (List.find (eligible key) collected) as [n'|] eqn:Hf.
      * exists (key, n'). split; [reflexivity | now apply Hfind'].
      * apply (find_none _ _ Hf) in Hin.
        assert (eligible key n = true) by now apply eligible_inv.
        congruence.
  - intros n ([key n'] & Hn & Hin)%in_map_iff. simpl in Hn. subst n'.
    apply Hfind', find_some in Hin as [_ Hel].
    apply eligible_inv in Hel as [Hid Hgif]. eauto.
Qed.

End SequenceFacts.

(** ** The scroll loops *)

Module ScrollFacts.
Import Js Platform Markdown Extract ExtractSpec Examples.

Section Scroll.
Variable rt : Runtime.

#[local] Abbreviation oldest_seen := (ExtractSpec.oldest_seen rt).
#[local] Abbreviation keeps_changing := (ExtractSpec.keeps_changing rt).
#[local] Abbreviation never_reaches := (ExtractSpec.never_reaches rt).
#[local] Abbreviation logs_readable := (ExtractSpec.logs_readable rt).
#[local] Abbreviation running := (ExtractSpec.running rt).

Lemma up_cycle_goes_on (page : Page) (cutoffDate sinceDate : option JsDate)
    (k : nat) (st : UpState) :
  keeps_changing page ->
  never_reaches (effective_cutoff cutoffDate sinceDate) page ->
  logs_readable page ->
  running page k st ->
  exists st', up_cycle rt page cutoffDate sinceDate st = Again st'
              /\ running page (S k) st'.
Proof.
  intros Hchange Hcut Hlog (Hcol & Hiter & Hprev).
  unfold up_cycle. rewrite Hcol, Hiter.
  change (seen page k ++ revealed page (S k)) with (seen page (S k)).
  fold (oldest_seen page (S k)).
  specialize (Hchange k). specialize (Hcut k). specialize (Hlog k).
  assert (match effective_cutoff cutoffDate sinceDate, oldest_seen page (S k) with
          | Some c, Some oldest => date_le oldest c
          | _, _ => false
          end = false) as ->.
  { destruct (effective_cutoff cutoffDate sinceDate), (oldest_seen page (S k));
      auto. }
  assert (match up_prevOldest st, oldest_seen page (S k) with
          | Some p, Some c => time_differs c p
          | _, _ => true
          end = true) as ->.
  { destruct Hprev as [-> | ->]; [reflexivity|].
    destruct (oldest_seen page k), (oldest_seen page (S k)); auto. }
  rewrite Hlog.
  eexists. split; [reflexivity|].
  repeat split. right. reflexivity.
Qed.

Lemma scroll_up_goes_on (page : Page) (cutoffDate sinceDate : option JsDate)
    (fuel k : nat) (st : UpState) :
  keeps_changing page ->
  never_reaches (effective_cutoff cutoffDate sinceDate) page ->
  logs_readable page ->
  running page k st ->
  scroll_up rt fuel page cutoffDate sinceDate st = Running.
Proof.
  intros Hchange Hcut Hlog. revert k st.
  induction fuel as [|fuel IH]; intros k st Hrun; [reflexivity|].
  destruct (up_cycle_goes_on page cutoffDate sinceDate k st Hchange Hcut Hlog Hrun)
    as (st' & Hcycle & Hrun').
  simpl. rewrite Hcycle. exact (IH (S k) st' Hrun').
Qed.

(** The downward loop enters at most [remaining] more turns. *)
Lemma scroll_down_steps (remaining : nat) (page : Page) (st : DownState) :
  (down_steps (scroll_down remaining page st) <= down_steps st + remaining)%nat.
Proof.
  revert st; induction remaining as [|n IH]; intros st; simpl; [lia|].
  assert (forall st', down_cycle page st = inl st' \/ down_cycle page st = inr st' ->
            down_steps st' = S (down_steps st)) as Hstep.
  { intros st'. unfold down_cycle.
    repeat match goal with
           | |- context [if ?b then _ else _] => destruct b
           end; intros [[= <-] | [= <-]]; reflexivity. }
  destruct (down_cycle page st) as [st'|st'] eqn:E.
  - specialize (IH st'). rewrite (Hstep st' (or_introl eq_refl)) in IH. lia.
  - rewrite (Hstep st' (or_intror eq_refl)). lia.
Qed.

(** C4. The downward loop has the ceiling: whatever the page shows, it
    stops within 5000 turns. The upward loop has none. On a page where the
    oldest time seen is not the same from any turn to the next (an older
    message at every turn, or no time element at all), stays after the
    cutoff, and is never one the progress log cannot print, the loop has
    neither stopped nor thrown after any number of turns: the script is
    still running, whatever the number of turns it is given. *)
Theorem upward_loop_has_no_ceiling :
  (forall page st,
     (down_steps (scroll_down step_limit page st)
      <= down_steps st + 5000)%nat)
  /\ (forall days sinceTimestamp now page,
        chat_pane page = true ->
        scroll_container page = true ->
        0 <= days ->
        keeps_changing page ->
        never_reaches
          (effective_cutoff (cutoffDate_of days now)
             (sinceDate_of rt sinceTimestamp)) page ->
        logs_readable page ->
        forall fuel,
          getExtractionScript rt days sinceTimestamp now page fuel = Running).
Proof.
  split; [intros page st; apply scroll_down_steps|].
  intros days since now page Hpane Hcont Hdays Hchange Hcut Hlog fuel.
  unfold getExtractionScript. rewrite Hpane, Hcont.
  assert ((0 <=? days) = true) as -> by now apply Z.leb_le.
  simpl.
  rewrite (scroll_up_goes_on page _ _ fuel 0 _ Hchange Hcut Hlog); [reflexivity|].
  repeat split. now left.
Qed.

End Scroll.

Lemma still_page_seen (k : nat) : seen still_page k = [unreadable_node].
Proof. induction k as [|k IH]; [reflexivity|]. simpl. now rewrite IH. Qed.

Lemma still_page_oldest (k : nat) : oldest_seen utc_en still_page k = Some None.
Proof. unfold oldest_seen. now rewrite still_page_seen. Qed.

Lemma timeless_page_seen (k : nat) : seen timeless_page k = [timeless_node].
Proof. induction k as [|k IH]; [reflexivity|]. simpl. now rewrite IH. Qed.

Lemma timeless_page_oldest (k : nat) : oldest_seen utc_en timeless_page k = None.
Proof. unfold oldest_seen. now rewrite timeless_page_seen. Qed.

(** On the page whose one time the host cannot read, the oldest time
    differs from itself at every turn, and the progress log of the fifth
    turn throws: the script is rejected, whatever the turns it is given
    beyond five. *)
Lemma unreadable_time_throws (fuel : nat) :
  getExtractionScript utc_en 0 None 1750000000000 still_page (5 + fuel)
  = Thrown RangeError.
Proof. reflexivity. Qed.

(** The upward script on a page none of whose children has a time
    element: all history, no resume time, any number of turns. *)
Lemma upward_loop_witness :
  keeps_changing utc_en timeless_page
  /\ logs_readable utc_en timeless_page
  /\ getExtractionScript utc_en 0 None 1750000000000 timeless_page
       (2 * step_limit)
     = Running.
Proof.
  assert (keeps_changing utc_en timeless_page) as Hchange
    by (intros k; now rewrite !timeless_page_oldest).
  assert (logs_readable utc_en timeless_page) as Hlog.
  { intros k. rewrite timeless_page_oldest. unfold log_throws.
    apply andb_false_r. }
  split; [exact Hchange|]. split; [exact Hlog|].
  destruct (upward_loop_has_no_ceiling utc_en) as [_ Hup].
  apply Hup; try reflexivity; try lia; [exact Hchange | | exact Hlog].
  intros k. now rewrite timeless_page_oldest.
Defined.

End ScrollFacts.

(** ** The outcome of an extraction *)

Module OutcomeFacts.
Import Js Platform Markdown Extract ExtractSpec Examples.

Lemma extract_messages_app (a b : list Node) :
  extract_messages (a ++ b) = extract_messages a ++ extract_messages b.
Proof.
  induction a as [|n a IH]; simpl; [reflexivity|].
  destruct (extract_node n); simpl; now rewrite IH.
Qed.

Lemma extract_node_none (n : Node) :
  extract_node n = None <->
  author_name n = None \/ time_datetime n = None \/ body_text n = None.
Proof.
  unfold extract_node.
  destruct (author_name n), (time_datetime n), (body_text n);
    split; auto; try discriminate; intros [H | [H | H]]; discriminate.
Qed.

Section Outcome.
Variable rt : Runtime.

#[local] Abbreviation trimmed := (ExtractSpec.trimmed rt).

Lemma finish_outcome (cutoffDate : option JsDate) (collected : list Node) :
  (trimmed cutoffDate collected = [] ->
   finish rt cutoffDate collected
   = {| messages := []; error := Some no_messages |})
  /\ (trimmed cutoffDate collected <> [] ->
      finish rt cutoffDate collected
      = {| messages := extract_messages (trimmed cutoffDate collected);
           error := None |}).
Proof.
  unfold finish, trimmed.
  destruct cutoffDate as [c|].
  - destruct (List.filter (in_range rt c) (sequence collected));
      split; congruence.
  - destruct (sequence collected); split; congruence.
Qed.

(** C6, as the code has it. Without the chat pane both scripts fail with
    the reason that names it. With the pane, once scrolling is over, the
    result is the failure "No messages could be extracted." exactly when
    no node is left after sequencing and the date trim; when nodes are
    left there is no error, and the messages are those of the well-formed
    nodes, in order: a node without author, time or content is passed
    over without any effect on the others, and when every node is such a
    node the result is an empty list without error. *)
Theorem extraction_outcome :
  (forall page days sinceTimestamp now fuel,
     chat_pane page = false ->
     getScrollDownExtractionScript rt page
     = {| messages := []; error := Some no_chat_pane |}
     /\ getExtractionScript rt days sinceTimestamp now page fuel
        = Returned {| messages := []; error := Some no_chat_pane |})
  /\ (forall page,
        chat_pane page = true ->
        exists collected,
          getScrollDownExtractionScript rt page = finish rt None collected)
  /\ (forall page days sinceTimestamp now fuel result,
        chat_pane page = true ->
        getExtractionScript rt days sinceTimestamp now page fuel
        = Returned result ->
        exists collected,
          result = finish rt (cutoffDate_of days now) collected)
  /\ (forall cutoffDate collected,
        (trimmed cutoffDate collected = [] ->
         finish rt cutoffDate collected
         = {| messages := []; error := Some no_messages |})
        /\ (trimmed cutoffDate collected <> [] ->
            finish rt cutoffDate collected
            = {| messages := extract_messages (trimmed cutoffDate collected);
                 error := None |}))
  /\ (forall before n after,
        extract_messages (before ++ n :: after)
        = extract_messages before
          ++ match extract_node n with Some m => [m] | None => [] end
          ++ extract_messages after)
  /\ (forall n,
        extract_node n = None <->
        author_name n = None \/ time_datetime n = None \/ body_text n = None)
  /\ (forall nodes,
        Forall (fun n => extract_node n = None) nodes ->
        extract_messages nodes = []).
Proof.
  split; [|split; [|split; [|split; [|split; [|split]]]]].
  - intros page days since now fuel Hpane.
    unfold getScrollDownExtractionScript, getExtractionScript.
    now rewrite Hpane.
  - intros page Hpane. unfold getScrollDownExtractionScript. rewrite Hpane.
    simpl. eexists. reflexivity.
  - intros page days since now fuel result Hpane.
    unfold getExtractionScript. rewrite Hpane. simpl.
    destruct ((0 <=? days) && scroll_container page).
    + destruct (scroll_up _ _ _ _ _ _) as [st|e|]; try discriminate.
      intros [= <-]. eexists. reflexivity.
    + intros [= <-]. eexists. reflexivity.
  - exact finish_outcome.
  - intros before n after. rewrite extract_messages_app. simpl.
    destruct (extract_node n); reflexivity.
  - exact extract_node_none.
  - induction 1 as [|n nodes Hn _ IH]; simpl; [reflexivity|].
    now rewrite Hn.
Qed.

End Outcome.

(** C6 fails as stated: on a page whose only node has no author, both
    scripts find the pane, finish, and return an empty list with no error
    at all. *)
Lemma all_malformed_is_silent :
  getExtractionScript utc_en 0 None 1750000000000 authorless_page 0
  = Returned {| messages := []; error := None |}
  /\ getScrollDownExtractionScript utc_en authorless_page
     = {| messages := []; error := None |}.
Proof. split; reflexivity. Qed.

Lemma extraction_outcome_witness :
  getScrollDownExtractionScript utc_en
    {| chat_pane := false; initial_children := []; scroll_container := false;
       revealed := fun _ => []; at_bottom := fun _ => true |}
  = {| messages := []; error := Some no_chat_pane |}
  /\ finish utc_en None [authorless_node; complete_node]
     = {| messages :=
            [ {| id := 2; author := "Alice";
                 timestamp := "2025-06-15T11:00:00Z";
                 contentHtml := "Hello again" |} ];
          error := None |}
  /\ finish utc_en None [] = {| messages := []; error := Some no_messages |}.
Proof.
  destruct (extraction_outcome utc_en) as (Hpane & _ & _ & Hfinish & _).
  split; [|split].
  - apply (Hpane _ 0 None 0 0%nat). reflexivity.
  - reflexivity.
  - apply (Hfinish None []). reflexivity.
Defined.

End OutcomeFacts.

(** ** The analyzer *)

Module RetentionFacts.
Import Js Platform Markdown Retention RetentionSpec Examples StringFacts.

Lemma bracketed_here_dotted (s m r : string) :
  bracketed_here s = Some (m, r) -> dotted_bracket s = true.
Proof.
  destruct s as [|c s]; [discriminate|]. simpl.
  destruct (is_char "[" c); [|discriminate]. simpl.
  unfold german_here, german_day.
  destruct s as [|c1 [|c2 [|c3 s]]]; simpl;
    try discriminate;
    repeat match goal with
           | |- context [if ?b then _ else _] => destruct b eqn:?; try discriminate
           end.
  intros _. now rewrite orb_true_l.
Qed.

Lemma scan_timestamps_none (content : string) :
  dotted_bracket content = false -> scan_timestamps 0 content = [].
Proof.
  induction content as [|c rest IH]; [reflexivity|].
  intros Hd.
  assert (dotted_bracket rest = false) as Hrest.
  { simpl in Hd. now apply orb_false_iff in Hd as [_ H]. }
  change (scan_timestamps 0 (String c rest))
    with (match bracketed_here (String c rest) with
          | Some (m, _) => m :: scan_timestamps (S (String.length m)) rest
          | None => scan_timestamps 0 rest
          end).
  destruct (bracketed_here (String c rest)) as [[m r]|] eqn:E.
  - apply bracketed_here_dotted in E. congruence.
  - exact (IH Hrest).
Qed.

(** C5. The analyzer is to read both the ISO form the exporter writes and
    the older day-first form. It tries the day-first pattern only: a
    content with no bracket followed by a day-first date gives no range on
    any host. So the ISO fixture of the repository's own test gives no
    range and an analysis with no dated chat, where the test expects one
    chat and two messages, and so does an archive [saveChat] has just
    written; the day-first fixture gives its two messages. *)
Theorem iso_archive_has_no_range :
  (forall rt content,
     dotted_bracket content = false -> extractDateRange rt content = None)
  /\ dotted_bracket iso_fixture = false
  /\ extractDateRange utc_en iso_fixture = None
  /\ chatsWithDates (analyzeRetention utc_en [("alice.md", iso_fixture)] 1750000000000)
     = 0%nat
  /\ (extractDateRange utc_en
        <$> snd (saveChat utc_en "Chat" second_batch "out"
                   sample_now ∅) !! "out/Chat.md")
     = Some None
  /\ extractDateRange utc_en legacy_fixture
     = Some {| range_oldest := 1749983400000;
               range_newest := 1749985200000;
               range_count := 2 |}.
Proof.
  split.
  - intros rt content Hd. unfold extractDateRange.
    now rewrite (scan_timestamps_none content Hd).
  - repeat split; vm_compute; reflexivity.
Qed.

Lemma iso_archive_witness : extractDateRange utc_en iso_fixture = None.
Proof.
  destruct iso_archive_has_no_range as [H _]. apply H.
  vm_compute. reflexivity.
Defined.

(** *** The sort by age and the cluster *)

Lemma insert_range_perm (c : ChatDateRange) (l : list ChatDateRange) :
  Permutation (insert_range c l) (c :: l).
Proof.
  induction l as [|x l IH]; simpl; [reflexivity|].
  destruct (ageDays x <=? ageDays c); [reflexivity|].
  rewrite IH. apply perm_swap.
Qed.

Lemma insert_range_sorted (c : ChatDateRange) (l : list ChatDateRange) :
  StronglySorted older_first l -> StronglySorted older_first (insert_range c l).
Proof.
  induction 1 as [|x l Hs IH Hall]; simpl; [repeat constructor|].
  destruct (Z.leb_spec (ageDays x) (ageDays c)) as [Hle|Hgt].
  - constructor; [now constructor|].
    constructor; [exact Hle|].
    eapply List.Forall_impl; [|exact Hall].
    unfold older_first. intros; lia.
  - constructor; [exact IH|].
    rewrite (insert_range_perm c l).
    constructor; [unfold older_first; lia | exact Hall].
Qed.

Lemma sort_ranges_perm (l : list ChatDateRange) : Permutation (sort_ranges l) l.
Proof.
  induction l as [|c l IH]; simpl; [reflexivity|].
  now rewrite insert_range_perm, IH.
Qed.

Lemma sort_ranges_sorted (l : list ChatDateRange) :
  StronglySorted older_first (sort_ranges l).
Proof.
  induction l as [|c l IH]; simpl; [constructor | now apply insert_range_sorted].
Qed.

Lemma cluster_explanation_phrases (size : nat) (clusterDate : string) (maxAge : Z) :
  holds cluster_phrase (cluster_explanation size clusterDate maxAge)
  /\ holds boundary_phrase (cluster_explanation size clusterDate maxAge).
Proof.
  unfold cluster_explanation, holds. split.
  - exists (show_nat size). eexists. reflexivity.
  - exists (show_nat size +:+ " chats cluster around " +:+ clusterDate
            +:+ " (~" +:+ show_Z maxAge +:+ " days ago), ").
    eexists. rewrite !append_assoc. unfold cluster_tail, boundary_phrase.
    repeat (f_equal; []). simpl. reflexivity.
Qed.

(** *** Where a phrase stands *)

Lemma occurs_holds (p s : string) : occurs p s = true <-> holds p s.
Proof.
  unfold holds. split.
  - induction s as [|c s IH]; simpl.
    + rewrite orb_false_r. unfold starts_with.
      destruct (strip_prefix p EmptyString) as [r|] eqn:E; [|discriminate].
      intros _. exists EmptyString, r.
      exact (MarkerFacts.strip_prefix_inv _ _ _ E).
    + intros [H | H]%orb_prop.
      * unfold starts_with in H.
        destruct (strip_prefix p (String c s)) as [r|] eqn:E; [|discriminate].
        exists EmptyString, r.
        exact (MarkerFacts.strip_prefix_inv _ _ _ E).
      * destruct (IH H) as (b & a & ->). exists (String c b), a. reflexivity.
  - intros (b & a & ->). induction b as [|c b IH].
    + change (EmptyString +:+ p +:+ a) with (p +:+ a).
      assert (starts_with p (p +:+ a) = true) as Hs
        by (unfold starts_with; now rewrite MarkerFacts.strip_prefix_app).
      destruct (p +:+ a); simpl; simpl in Hs; now rewrite Hs.
    + change (String c b +:+ p +:+ a) with (String c (b +:+ p +:+ a)).
      simpl. rewrite IH. apply orb_true_r.
Qed.


(** *** A number written between two texts *)

Lemma starts_with_nil (s : string) : starts_with EmptyString s = true.
Proof. reflexivity. Qed.

Lemma starts_with_cons (c : ascii) (p : string) (e : ascii) (s : string) :
  starts_with (String c p) (String e s)
  = Ascii.eqb c e && starts_with p s.
Proof. unfold starts_with. simpl. now destruct (Ascii.eqb c e). Qed.

Lemma starts_with_foreign (p a : string) (d : ascii) (x : string) :
  foreign p d = true ->
  starts_with p (a +:+ String d x) = starts_with p a.
Proof.
  revert a. induction p as [|c p IH]; intros a Hf; [reflexivity|].
  simpl in Hf. apply andb_prop in Hf as [Hc Hp].
  destruct a as [|e a].
  - change (EmptyString +:+ String d x) with (String d x).
    rewrite starts_with_cons. apply negb_true_iff in Hc. now rewrite Hc.
  - change (String e a +:+ String d x) with (String e (a +:+ String d x)).
    rewrite !starts_with_cons. now rewrite (IH a Hp).
Qed.

Lemma occurs_foreign (p a : string) (d : ascii) (x : string) :
  p <> EmptyString ->
  foreign p d = true ->
  occurs p (a +:+ String d x) = occurs p a || occurs p x.
Proof.
  intros Hne Hf. induction a as [|e a IH].
  - change (EmptyString +:+ String d x) with (String d x).
    destruct p as [|c p]; [contradiction|].
    cbn [occurs]. unfold starts_with at 2. cbn [strip_prefix orb].
    rewrite starts_with_cons.
    simpl in Hf. apply andb_prop in Hf as [Hc _].
    apply negb_true_iff in Hc. now rewrite Hc.
  - change (String e a +:+ String d x) with (String e (a +:+ String d x)).
    cbn [occurs]. rewrite IH.
    change (String e (a +:+ String d x)) with (String e a +:+ String d x).
    rewrite (starts_with_foreign p (String e a) d x Hf).
    now rewrite orb_assoc.
Qed.

(** A phrase that holds no unit of the numeral [n] stands in
    [before ++ n ++ after] only where it stands in [before] or in
    [after]. *)
Lemma occurs_around_numeral (p before n after : string) :
  p <> EmptyString ->
  n <> EmptyString ->
  str_forallb (foreign p) n = true ->
  occurs p (before +:+ n +:+ after) = occurs p before || occurs p after.
Proof.
  intros Hp Hn Hall. destruct n as [|d n]; [contradiction|]. clear Hn.
  simpl in Hall. apply andb_prop in Hall as [Hd Hall].
  change (String d n +:+ after) with (String d (n +:+ after)).
  rewrite (occurs_foreign p before d _ Hp Hd). f_equal.
  induction n as [|e n IH]; [reflexivity|].
  simpl in Hall. apply andb_prop in Hall as [He Hall].
  change (String e n +:+ after) with (EmptyString +:+ String e (n +:+ after)).
  rewrite (occurs_foreign p EmptyString e _ Hp He).
  destruct p; [contradiction|]. cbn [occurs]. unfold starts_with at 1.
  cbn [strip_prefix orb]. exact (IH Hall).
Qed.

(** *** Numbers in decimal *)

Lemma digit_unit (k : nat) : (k <= 9)%nat -> is_digit (chr (48 + k)) = true.
Proof.
  intros Hk.
  do 10 (destruct k as [|k]; [reflexivity|]). lia.
Qed.

Lemma digits_numeral (fuel : nat) (n : Z) (acc : string) :
  0 <= n ->
  str_forallb numeral acc = true ->
  str_forallb numeral (digits_of_pos_fuel fuel n acc) = true
  /\ (fuel <> 0%nat -> digits_of_pos_fuel fuel n acc <> EmptyString).
Proof.
  revert n acc. induction fuel as [|fuel IH]; intros n acc Hn Hacc.
  - split; [exact Hacc | congruence].
  - cbn [digits_of_pos_fuel].
    assert (numeral (chr (48 + Z.to_nat (n mod 10))) = true) as Hd.
    { unfold numeral. rewrite digit_unit; [reflexivity|].
      pose proof (Z.mod_pos_bound n 10 ltac:(lia)). lia. }
    destruct (n <? 10).
    + split; [cbn [str_forallb]; now rewrite Hd | discriminate].
    + assert (0 <= n / 10) as Hq by (apply Z.div_pos; lia).
      destruct (IH (n / 10) (String (chr (48 + Z.to_nat (n mod 10))) acc) Hq)
        as [H1 H2]; [cbn [str_forallb]; now rewrite Hd|].
      split; [exact H1|]. intros _.
      destruct fuel as [|f]; [discriminate | apply H2; discriminate].
Qed.

Lemma show_Z_numeral (n : Z) :
  str_forallb numeral (show_Z n) = true /\ show_Z n <> EmptyString.
Proof.
  unfold show_Z. destruct (n <? 0) eqn:E.
  - apply Z.ltb_lt in E.
    destruct (digits_numeral (S (Z.to_nat (Z.log2 (- n)))) (- n) EmptyString)
      as [H _]; [lia | reflexivity|].
    split; [cbn [str_forallb]; now rewrite H | discriminate].
  - apply Z.ltb_ge in E.
    destruct (digits_numeral (S (Z.to_nat (Z.log2 n))) n EmptyString)
      as [H1 H2]; [lia | reflexivity|].
    split; [exact H1 | apply H2; discriminate].
Qed.

Lemma cluster_phrase_foreign (d : ascii) :
  numeral d = true -> foreign cluster_phrase d = true.
Proof. destruct d as [[] [] [] [] [] [] [] []]; try discriminate; reflexivity. Qed.

(** The generic explanation never holds the words of the clustering
    one. *)
Lemma generic_without_cluster (n : Z) :
  occurs cluster_phrase (oldest_is_n_days (show_Z n)) = false.
Proof.
  destruct (show_Z_numeral n) as [Hnum Hne].
  unfold oldest_is_n_days.
  rewrite occurs_around_numeral; [reflexivity | discriminate | exact Hne |].
  revert Hnum. apply forallb_weaken. exact cluster_phrase_foreign.
Qed.

Lemma generic_explanation_text (n : Z) :
  generic_explanation n = oldest_is_n_days (show_Z n).
Proof. reflexivity. Qed.

Section Report.
Variable rt : Runtime.

Lemma analyzeRetention_ranges (files : list (string * string)) (now : Z) :
  chatRanges (analyzeRetention rt files now)
  = sort_ranges (collect_ranges rt now files).
Proof.
  unfold analyzeRetention.
  destruct (sort_ranges (collect_ranges rt now files)); reflexivity.
Qed.

(** C7, as the code has it. A report without dated archive has no
    archive within 14 days of anything, and its explanation is neither the
    clustering nor the generic one: it says that no timestamp was found.
    In a report with at least one dated archive, the age the report gives
    as the maximum is the greatest age of its archives; when three or more
    of them have an age within 14 days of it, the explanation is the
    clustering one, with their number, and holds the words "chats cluster
    around" and the suggestion of an account start date or sidebar
    visibility window; when fewer than three do, the explanation is the
    generic one, "Oldest exported messages are N days old. This reflects
    ...", with N that maximum in decimal, and it does not hold the words
    of the clustering one. *)
Theorem cluster_explanation_spec (files : list (string * string)) (now : Z) :
  let report := analyzeRetention rt files now in
  let maxAge := maxOldestAgeDays report in
  let cluster := List.filter (in_cluster maxAge) (chatRanges report) in
  (chatRanges report = [] ->
   cluster = []
   /\ explanation report = nothing_dated
   /\ occurs oldest_phrase (explanation report) = false
   /\ occurs cluster_phrase (explanation report) = false)
  /\ (chatRanges report <> [] ->
      Permutation (chatRanges report) (collect_ranges rt now files)
      /\ (forall c, In c (chatRanges report) -> ageDays c <= maxAge)
      /\ (exists c, In c (chatRanges report) /\ ageDays c = maxAge)
      /\ (forall c, In c cluster <->
                    In c (chatRanges report) /\ maxAge - 14 <= ageDays c)
      /\ ((3 <= length cluster)%nat ->
          (exists clusterDate,
             explanation report
             = cluster_explanation (length cluster) clusterDate maxAge)
          /\ holds cluster_phrase (explanation report)
          /\ holds boundary_phrase (explanation report))
      /\ ((length cluster < 3)%nat ->
          explanation report = oldest_is_n_days (show_Z maxAge)
          /\ holds oldest_phrase (explanation report)
          /\ occurs cluster_phrase (explanation report) = false
          /\ ~ holds cluster_phrase (explanation report))).
Proof.
  intros report maxAge cluster.
  pose proof (analyzeRetention_ranges files now) as Hranges.
  fold report in Hranges.
  pose proof (sort_ranges_perm (collect_ranges rt now files)) as Hperm.
  pose proof (sort_ranges_sorted (collect_ranges rt now files)) as Hsorted.
  unfold cluster, maxAge, report in *. clear report maxAge cluster.
  unfold analyzeRetention in *.
  destruct (sort_ranges (collect_ranges rt now files)) as [|oldestChat others]
    eqn:Hsort.
  { cbn [chatRanges maxOldestAgeDays explanation].
    split; [intros _; repeat split | intros H; now contradiction H]. }
  cbn [chatRanges maxOldestAgeDays explanation] in *.
  split; [discriminate|]. intros _.
  split; [exact Hperm|].
  split.
  { intros c [<- | Hc]; [lia|].
    apply StronglySorted_inv in Hsorted as [_ Hall].
    rewrite List.Forall_forall in Hall. exact (Hall c Hc). }
  split; [exists oldestChat; split; [now left | reflexivity]|].
  split.
  { intros c. rewrite List.filter_In. unfold in_cluster, clusterThresholdDays.
    now rewrite Z.leb_le. }
  split.
  - intros Hlen. apply Nat.leb_le in Hlen. rewrite Hlen.
    split; [eexists; reflexivity | apply cluster_explanation_phrases].
  - intros Hlen. apply Nat.leb_gt in Hlen. rewrite Hlen.
    rewrite generic_explanation_text.
    pose proof (generic_without_cluster (ageDays oldestChat)) as Hno.
    split; [reflexivity|].
    split; [exists EmptyString; eexists; reflexivity|].
    split; [exact Hno|].
    intros H%occurs_holds. congruence.
Qed.

End Report.

(** C7 fails as stated for a report without dated archive: no archive is
    within 14 days of the maximum age, which is fewer than three, and the
    explanation is not the generic one. *)
Lemma undated_report_is_not_generic :
  let report := analyzeRetention utc_en [("notes.md", "# Notes")] 1750000000000 in
  length (List.filter (in_cluster (maxOldestAgeDays report)) (chatRanges report))
  = 0%nat
  /\ explanation report = "No chat files with parseable timestamps found."
  /\ occurs "Oldest exported messages are" (explanation report) = false
  /\ explanation report <> oldest_is_n_days "0".
Proof. vm_compute. repeat split; try reflexivity. discriminate. Qed.

Lemma cluster_explanation_witness :
  holds cluster_phrase
    (explanation (analyzeRetention utc_en clustered_files 1750000000000))
  /\ explanation (analyzeRetention utc_en scattered_files 1750000000000)
     = oldest_is_n_days "165"
  /\ explanation (analyzeRetention utc_en [] 1750000000000) = nothing_dated.
Proof.
  split; [|split].
  - destruct (cluster_explanation_spec utc_en clustered_files 1750000000000)
      as (_ & H). destruct H as (_ & _ & _ & _ & Hcluster & _);
      [vm_compute; discriminate|].
    apply Hcluster. vm_compute. lia.
  - destruct (cluster_explanation_spec utc_en scattered_files 1750000000000)
      as (_ & H). destruct H as (_ & _ & _ & _ & _ & Hgeneric);
      [vm_compute; discriminate|].
    destruct Hgeneric as (-> & _); [vm_compute; lia|].
    vm_compute. reflexivity.
  - destruct (cluster_explanation_spec utc_en [] 1750000000000) as (H & _).
    now destruct H as (_ & -> & _).
Defined.

End RetentionFacts.
